(** * Fog compute node: the admission and scheduling core of main.go

    A shallow embedding of the single-node core of the fog computing
    service: the scoring function [calculateScore], the resource ledger,
    the admission handler [handleSubmitTask], the priority queue
    ([TaskHeap] driven by Go's container/heap), the worker loop, the
    rejection queue and its retry handler.

    Conventions.
    - Go's [int] and [time.Duration] are 64-bit signed integers: values
      are in [Z] and the one subtraction the code performs on client
      integers is wrapped with [wrap64].
    - Go's [float64] is a type class [Float64] with two instances:
      [binary64], the IEEE 754 arithmetic the program runs on (Rocq's
      primitive floats), and [exact], rational arithmetic without
      rounding.  The code is translated once, over the class.
    - [*Task] pointers are addresses into [heapObjs], the memory that
      holds the [Task] objects; the task store and the priority queue
      share these addresses, as the Go maps and slices share pointers.
    - Goroutines interleave between critical sections: each event of a
      run ([Event], [step]) is what one goroutine does under the node
      lock.  [handleSubmitTask] reads its snapshot under the read lock
      and commits under the write lock; [SubmitTask] takes the two
      together and [SubmitTaskLate] commits on a snapshot read earlier.
    - The clock is an argument: [now] is the value of
      time.Now().UnixNano(), and the readings one handler takes in a
      row ([ID], [SubmittedAt], [RejectedAt]) are taken as one.

    Left out: the request payload and the result maps of the simulated
    handlers (a tag stands for each), logging, JSON encoding of
    responses, the metrics page (it reads the counters and the length
    of the rejection queue under two different locks), the router with
    its CORS middleware, and shutdown through the context.  The metrics
    lock is taken inside the node lock
    in [rejectTask] and right after it in [processTask] and
    [updateMetrics]; each pair is one step here. *)

From Stdlib Require Import ZArith QArith Qabs Lqa Floats.
From Stdlib Require Import DecimalString DecimalPos DecimalZ.
From stdpp Require Import base list gmap strings.

Set Warnings "-inexact-float".

(** ** Machine integers and formatting *)

(** Two's complement wrap-around of a 64-bit signed integer. *)
Definition wrap64 (z : Z) : Z := ((z + 2 ^ 63) mod 2 ^ 64 - 2 ^ 63)%Z.

(** [%d] of fmt.Sprintf. *)
Definition itoa (z : Z) : string := NilZero.string_of_int (Z.to_int z).

(** Rounding of a non-negative rational to the nearest integer, ties to
    even: the rounding strconv applies to the exact decimal expansion. *)
Definition round_half_even (q : Q) : Z :=
  let n := Qnum q in
  let d := Zpos (Qden q) in
  let k := (n / d)%Z in
  let r := (n mod d)%Z in
  match (2 * r ?= d)%Z with
  | Lt => k
  | Gt => (k + 1)%Z
  | Eq => if Z.even k then k else (k + 1)%Z
  end.

Definition pad2 (n : Z) : string :=
  if (n <? 10)%Z then "0" +:+ itoa n else itoa n.

(** [%.2f] of a finite value given by its sign and magnitude. *)
Definition fixed2 (neg : bool) (q : Q) : string :=
  let n := round_half_even (q * 100) in
  (if neg then "-" else "") +:+ itoa (n / 100) +:+ "." +:+ pad2 (n mod 100).

(** ** float64 *)

Class Float64 (F : Type) := {
  fadd : F -> F -> F;
  fsub : F -> F -> F;
  fmul : F -> F -> F;
  fdiv : F -> F -> F;
  flt : F -> F -> bool;      (* x < y *)
  feq : F -> F -> bool;      (* x == y *)
  of_int : Z -> F;           (* float64(n) *)
  lit : Q -> F;              (* a decimal constant of the source *)
  fmt2f : F -> string        (* %.2f *)
}.

Declare Scope fl_scope.
Delimit Scope fl_scope with fl.
Infix "+" := fadd : fl_scope.
Infix "-" := fsub : fl_scope.
Infix "*" := fmul : fl_scope.
Infix "/" := fdiv : fl_scope.
Infix "<?" := flt : fl_scope.
Infix "=?" := feq : fl_scope.
Notation "x >? y" := (flt y x) (at level 70, no associativity) : fl_scope.

(** What the queue needs of float64 comparison: [<] is asymmetric, and
    "not less than" is transitive through a value that is a number
    (x == x, which only NaN fails). *)
Class Float64Order (F : Type) {FO : Float64 F} : Prop := {
  flt_asym : forall x y : F, (x <? y)%fl = true -> (y <? x)%fl = false;
  flt_ntrans : forall x y z : F,
    (y =? y)%fl = true ->
    (y <? x)%fl = false -> (z <? y)%fl = false -> (z <? x)%fl = false
}.

(** *** IEEE 754 binary64 *)

(** float64(n) for an integer n: round to nearest, ties to even. *)
Definition float_of_Z (n : Z) : float :=
  SF2Prim (binary_normalize prec emax n 0 false).

(** The exact value of a finite float, as sign and magnitude. *)
Definition float_magnitude (x : float) : option (bool * Q) :=
  match Prim2SF x with
  | S754_zero s => Some (s, 0%Q)
  | S754_finite s m e =>
      Some (s, match e with
               | Z0 => Zpos m # 1
               | Zpos p => (Zpos m * 2 ^ Zpos p)%Z # 1
               | Zneg p => Zpos m # (2 ^ p)
               end)
  | _ => None
  end.

Definition float_fmt2f (x : float) : string :=
  match float_magnitude x with
  | Some (s, q) => fixed2 s q
  | None =>
      if PrimFloat.eqb x x then
        (if PrimFloat.ltb x 0 then "-Inf" else "+Inf")
      else "NaN"
  end.

#[export] Instance binary64 : Float64 float := {|
  fadd := PrimFloat.add;
  fsub := PrimFloat.sub;
  fmul := PrimFloat.mul;
  fdiv := PrimFloat.div;
  flt := PrimFloat.ltb;
  feq := PrimFloat.eqb;
  of_int := float_of_Z;
  lit q := PrimFloat.div (float_of_Z (Qnum q)) (float_of_Z (Zpos (Qden q)));
  fmt2f := float_fmt2f
|}.

(** *** Exact (rational) arithmetic *)

#[export] Instance exact : Float64 Q := {|
  fadd := Qplus;
  fsub := Qminus;
  fmul := Qmult;
  fdiv := Qdiv;
  flt x y := negb (Qle_bool y x);
  feq := Qeq_bool;
  of_int := inject_Z;
  lit q := q;
  fmt2f q := fixed2 (Qnum q <? 0)%Z (Qabs q)
|}.

(** ** time.Duration *)

Definition Second : Z := 1000000000.
Definition Millisecond : Z := 1000000.

Section Model.
Context {F : Type} {FO : Float64 F}.

(** Duration.Seconds of package time. *)
Definition Seconds (d : Z) : F :=
  (of_int (Z.quot d Second) + of_int (Z.rem d Second) / lit 1e9)%fl.

(** ** Data model *)

Definition MaxLoadThreshold : F := lit 0.8.

Record FogNode := {
  node_ID : string;
  Location : string;
  node_Status : string;
  Load : F;
  LastSeen : Z
}.

(** What a handler of [processTask] returns. *)
Inductive HandlerResult :=
| AggregateData | PerformAnalytics | PreprocessData | CacheData | UnknownType.

(** [Task]. The payload is opaque to the scheduler and is left out. *)
Record Task := {
  ID : string;
  Type_ : string;
  Priority : Z;
  Criticality : Z;
  SmartScore : F;
  EstimatedLatency : Z;
  CPUCost : F;
  RAMCost : F;
  StorageCost : F;
  EnergyCost : F;
  NetworkLatency : Z;
  Status : string;
  Result : option HandlerResult;
  SubmittedAt : Z;
  CompletedAt : option Z
}.

Record RejectedTask := {
  rt_Task : Task;
  RejectedAt : Z;
  RejectionReason : string;
  NodeLoad : F;
  QueueSize : Z
}.

(** ** calculateScore *)

Definition calculateScore (t : Task) : F :=
  let baseScore := of_int (Priority t) in
  let criticalityBonus := (of_int (wrap64 (5 - Criticality t)) * lit 10)%fl in
  let latencyPenalty := (Seconds (EstimatedLatency t) * lit 0.1)%fl in
  let networkPenalty := (Seconds (NetworkLatency t) * lit 0.05)%fl in
  let resourcePenalty := ((CPUCost t + RAMCost t) * lit 5)%fl in
  let storagePenalty := (StorageCost t * lit 0.001)%fl in
  let energyPenalty := (EnergyCost t * lit 2)%fl in
  (baseScore + criticalityBonus + latencyPenalty + networkPenalty +
   resourcePenalty + storagePenalty + energyPenalty)%fl.

(** Field assignments through a task value. *)
Definition with_ID (v : string) (t : Task) : Task :=
  {| ID := v; Type_ := Type_ t; Priority := Priority t;
     Criticality := Criticality t; SmartScore := SmartScore t;
     EstimatedLatency := EstimatedLatency t; CPUCost := CPUCost t;
     RAMCost := RAMCost t; StorageCost := StorageCost t;
     EnergyCost := EnergyCost t; NetworkLatency := NetworkLatency t;
     Status := Status t; Result := Result t; SubmittedAt := SubmittedAt t;
     CompletedAt := CompletedAt t |}.

Definition with_SmartScore (v : F) (t : Task) : Task :=
  {| ID := ID t; Type_ := Type_ t; Priority := Priority t;
     Criticality := Criticality t; SmartScore := v;
     EstimatedLatency := EstimatedLatency t; CPUCost := CPUCost t;
     RAMCost := RAMCost t; StorageCost := StorageCost t;
     EnergyCost := EnergyCost t; NetworkLatency := NetworkLatency t;
     Status := Status t; Result := Result t; SubmittedAt := SubmittedAt t;
     CompletedAt := CompletedAt t |}.

Definition with_CPUCost (v : F) (t : Task) : Task :=
  {| ID := ID t; Type_ := Type_ t; Priority := Priority t;
     Criticality := Criticality t; SmartScore := SmartScore t;
     EstimatedLatency := EstimatedLatency t; CPUCost := v;
     RAMCost := RAMCost t; StorageCost := StorageCost t;
     EnergyCost := EnergyCost t; NetworkLatency := NetworkLatency t;
     Status := Status t; Result := Result t; SubmittedAt := SubmittedAt t;
     CompletedAt := CompletedAt t |}.

Definition with_RAMCost (v : F) (t : Task) : Task :=
  {| ID := ID t; Type_ := Type_ t; Priority := Priority t;
     Criticality := Criticality t; SmartScore := SmartScore t;
     EstimatedLatency := EstimatedLatency t; CPUCost := CPUCost t;
     RAMCost := v; StorageCost := StorageCost t;
     EnergyCost := EnergyCost t; NetworkLatency := NetworkLatency t;
     Status := Status t; Result := Result t; SubmittedAt := SubmittedAt t;
     CompletedAt := CompletedAt t |}.

Definition with_StorageCost (v : F) (t : Task) : Task :=
  {| ID := ID t; Type_ := Type_ t; Priority := Priority t;
     Criticality := Criticality t; SmartScore := SmartScore t;
     EstimatedLatency := EstimatedLatency t; CPUCost := CPUCost t;
     RAMCost := RAMCost t; StorageCost := v;
     EnergyCost := EnergyCost t; NetworkLatency := NetworkLatency t;
     Status := Status t; Result := Result t; SubmittedAt := SubmittedAt t;
     CompletedAt := CompletedAt t |}.

Definition with_EnergyCost (v : F) (t : Task) : Task :=
  {| ID := ID t; Type_ := Type_ t; Priority := Priority t;
     Criticality := Criticality t; SmartScore := SmartScore t;
     EstimatedLatency := EstimatedLatency t; CPUCost := CPUCost t;
     RAMCost := RAMCost t; StorageCost := StorageCost t;
     EnergyCost := v; NetworkLatency := NetworkLatency t;
     Status := Status t; Result := Result t; SubmittedAt := SubmittedAt t;
     CompletedAt := CompletedAt t |}.

Definition with_NetworkLatency (v : Z) (t : Task) : Task :=
  {| ID := ID t; Type_ := Type_ t; Priority := Priority t;
     Criticality := Criticality t; SmartScore := SmartScore t;
     EstimatedLatency := EstimatedLatency t; CPUCost := CPUCost t;
     RAMCost := RAMCost t; StorageCost := StorageCost t;
     EnergyCost := EnergyCost t; NetworkLatency := v;
     Status := Status t; Result := Result t; SubmittedAt := SubmittedAt t;
     CompletedAt := CompletedAt t |}.

Definition with_Status (v : string) (t : Task) : Task :=
  {| ID := ID t; Type_ := Type_ t; Priority := Priority t;
     Criticality := Criticality t; SmartScore := SmartScore t;
     EstimatedLatency := EstimatedLatency t; CPUCost := CPUCost t;
     RAMCost := RAMCost t; StorageCost := StorageCost t;
     EnergyCost := EnergyCost t; NetworkLatency := NetworkLatency t;
     Status := v; Result := Result t; SubmittedAt := SubmittedAt t;
     CompletedAt := CompletedAt t |}.

Definition with_SubmittedAt (v : Z) (t : Task) : Task :=
  {| ID := ID t; Type_ := Type_ t; Priority := Priority t;
     Criticality := Criticality t; SmartScore := SmartScore t;
     EstimatedLatency := EstimatedLatency t; CPUCost := CPUCost t;
     RAMCost := RAMCost t; StorageCost := StorageCost t;
     EnergyCost := EnergyCost t; NetworkLatency := NetworkLatency t;
     Status := Status t; Result := Result t; SubmittedAt := v;
     CompletedAt := CompletedAt t |}.

(** The three assignments of [processTask] on completion. *)
Definition with_completion (r : HandlerResult) (at_ : Z) (t : Task) : Task :=
  {| ID := ID t; Type_ := Type_ t; Priority := Priority t;
     Criticality := Criticality t; SmartScore := SmartScore t;
     EstimatedLatency := EstimatedLatency t; CPUCost := CPUCost t;
     RAMCost := RAMCost t; StorageCost := StorageCost t;
     EnergyCost := EnergyCost t; NetworkLatency := NetworkLatency t;
     Status := "completed"; Result := Some r; SubmittedAt := SubmittedAt t;
     CompletedAt := Some at_ |}.

End Model.

Arguments FogNode F : clear implicits.
Arguments Task F : clear implicits.
Arguments RejectedTask F : clear implicits.

(** ** container/heap

    The functions of Go's container/heap, over a slice of elements
    compared by [Less].  [up] and [down] are loops: the index moves
    strictly towards the root, respectively towards the leaves, so the
    recursion is on a bound [fuel] that the callers set high enough
    ([up_fuel], [down_fuel]). *)

Section ContainerHeap.
Context {A : Type} (Less : A -> A -> bool).

(** [h.Less(i, j)] and [h.Swap(i, j)] on valid indices. *)
Definition less_at (h : list A) (i j : nat) : bool :=
  match h !! i, h !! j with
  | Some x, Some y => Less x y
  | _, _ => false
  end.

Definition Swap (h : list A) (i j : nat) : list A :=
  match h !! i, h !! j with
  | Some x, Some y => <[i := y]> (<[j := x]> h)
  | _, _ => h
  end.

(** [(j - 1) / 2] truncates towards zero in Go, so the parent of the
    root is the root; subtraction on [nat] gives the same. *)
Fixpoint up (fuel : nat) (h : list A) (j : nat) : list A :=
  match fuel with
  | O => h
  | S fuel' =>
      let i := (j - 1) / 2 in
      if bool_decide (i = j) || negb (less_at h j i) then h
      else up fuel' (Swap h i j) i
  end.

Fixpoint down (fuel : nat) (h : list A) (i n : nat) : list A :=
  match fuel with
  | O => h
  | S fuel' =>
      let j1 := 2 * i + 1 in
      if bool_decide (n <= j1) then h
      else
        let j2 := j1 + 1 in
        let j := if bool_decide (j2 < n) && less_at h j2 j1 then j2 else j1 in
        if negb (less_at h j i) then h
        else down fuel' (Swap h i j) j n
  end.

(** heap.Push: append, then sift the new last element up. *)
Definition heap_Push (h : list A) (x : A) : list A :=
  let h' := h ++ [x] in
  up (length h') h' (length h' - 1).

(** heap.Pop: swap the root with the last element, sift the new root
    down within the first n elements, cut the last element off and
    return it.  On an empty slice Go panics; the worker never calls it
    there. *)
Definition heap_Pop (h : list A) : option (A * list A) :=
  match length h with
  | O => None
  | S n =>
      let h' := down (S n) (Swap h 0 n) 0 n in
      match h' !! n with
      | Some item => Some (item, take n h')
      | None => None
      end
  end.

(** *** The order of a heap

    The predicates the lemmas on [up] and [down] are stated with. *)

Definition parent (j : nat) : nat := (j - 1) / 2.

(** The child [down] compares with the element at [i]. *)
Definition child (h : list A) (i n : nat) : nat :=
  if bool_decide (2 * i + 1 + 1 < n) && less_at h (2 * i + 1 + 1) (2 * i + 1)
  then 2 * i + 1 + 1 else 2 * i + 1.

(** No element among the first [n] is less than its parent. *)
Definition heap_okn (h : list A) (n : nat) : Prop :=
  forall k x y, 0 < k < n ->
    h !! k = Some x -> h !! parent k = Some y -> Less x y = false.

Definition heap_ok (h : list A) : Prop := heap_okn h (length h).

(** The order but for the element at [j], which [up] is moving. *)
Definition up_inv (h : list A) (j : nat) : Prop :=
  (forall k x y, 0 < k -> k <> j ->
     h !! k = Some x -> h !! parent k = Some y -> Less x y = false) /\
  (forall k x g, 0 < k -> parent k = j -> 0 < j ->
     h !! k = Some x -> h !! parent j = Some g -> Less x g = false).

(** The order among the first [n] but for the element at [i], which
    [down] is moving. *)
Definition down_inv (h : list A) (i n : nat) : Prop :=
  (forall k x y, 0 < k < n -> parent k <> i ->
     h !! k = Some x -> h !! parent k = Some y -> Less x y = false) /\
  (forall k x g, 0 < k < n -> parent k = i -> 0 < i ->
     h !! k = Some x -> h !! parent i = Some g -> Less x g = false).

End ContainerHeap.

(** ** The node *)

Section Node.
Context {F : Type} {FO : Float64 F}.

Record Metrics := {
  TasksProcessed : Z;
  TasksRejected : Z;
  AvgLatency : Z;
  CurrentLoad : F
}.

(** A worker goroutine: waiting to pop, holding the task it popped, or
    inside [processTask] after the task was marked "processing". *)
Inductive Worker :=
| Idle
| Popped (task : nat)
| Running (task : nat) (startTime : Z).

(** [FogCompute].  [heapObjs] is the memory the [*Task] pointers of
    [tasks] and [taskHeap] point into and [workerPool] holds the local
    variable [task] of each worker goroutine; they are not fields of the
    Go struct. *)
Record FogCompute := {
  node : FogNode F;
  tasks : gmap string nat;
  taskHeap : list nat;
  rejectedTasks : list (RejectedTask F);
  metrics : Metrics;
  availableCPU : F;
  availableRAM : F;
  availableStorage : F;
  energyLevel : F;
  heapObjs : list (Task F);
  workerPool : list Worker
}.

Definition numWorkers : nat := 5.

Definition NewFogCompute (nodeID location : string) (now : Z) : FogCompute :=
  {| node := {| node_ID := nodeID; Location := location;
                node_Status := "active"; Load := lit 0; LastSeen := now |};
     tasks := ∅;
     taskHeap := [];
     rejectedTasks := [];
     metrics := {| TasksProcessed := 0; TasksRejected := 0; AvgLatency := 0;
                   CurrentLoad := lit 0 |};
     availableCPU := lit 1;
     availableRAM := lit 1;
     availableStorage := lit 1000;
     energyLevel := lit 1;
     heapObjs := [];
     workerPool := replicate numWorkers Idle |}.

(** [TaskHeap.Less] through the pointers. *)
Definition score_at (objs : list (Task F)) (a : nat) : option F :=
  SmartScore <$> objs !! a.

Definition TaskHeap_Less (objs : list (Task F)) (a b : nat) : bool :=
  match score_at objs a, score_at objs b with
  | Some x, Some y => (x <? y)%fl
  | _, _ => false
  end.

(** *** rejectTask *)

Definition rejectTask (fc : FogCompute) (task : Task F) (reason : string)
    (load : F) (queueSize : Z) (now : Z) : FogCompute :=
  {| node := node fc;
     tasks := tasks fc;
     taskHeap := taskHeap fc;
     rejectedTasks := rejectedTasks fc ++
       [{| rt_Task := task; RejectedAt := now; RejectionReason := reason;
           NodeLoad := load; QueueSize := queueSize |}];
     metrics := {| TasksProcessed := TasksProcessed (metrics fc);
                   TasksRejected := wrap64 (TasksRejected (metrics fc) + 1);
                   AvgLatency := AvgLatency (metrics fc);
                   CurrentLoad := CurrentLoad (metrics fc) |};
     availableCPU := availableCPU fc;
     availableRAM := availableRAM fc;
     availableStorage := availableStorage fc;
     energyLevel := energyLevel fc;
     heapObjs := heapObjs fc;
     workerPool := workerPool fc |}.

(** *** handleSubmitTask *)

(** What the handler reads under the read lock before it looks at the
    task. *)
Record Snapshot := {
  currentLoad : F;
  queueSize : Z;
  snapCPU : F;
  snapRAM : F;
  snapStorage : F;
  snapEnergy : F
}.

Definition snapshot (fc : FogCompute) : Snapshot :=
  {| currentLoad := Load (node fc);
     queueSize := Z.of_nat (length (taskHeap fc));
     snapCPU := availableCPU fc;
     snapRAM := availableRAM fc;
     snapStorage := availableStorage fc;
     snapEnergy := energyLevel fc |}.

Definition defaultCPUCost (ty : string) : F :=
  if String.eqb ty "data_aggregation" then lit 0.2
  else if String.eqb ty "edge_analytics" then lit 0.4
  else if String.eqb ty "preprocessing" then lit 0.1
  else if String.eqb ty "caching" then lit 0.05
  else lit 0.2.

Definition defaultRAMCost (ty : string) : F :=
  if String.eqb ty "data_aggregation" then lit 0.15
  else if String.eqb ty "edge_analytics" then lit 0.3
  else if String.eqb ty "preprocessing" then lit 0.1
  else if String.eqb ty "caching" then lit 0.05
  else lit 0.15.

Definition defaultStorageCost (ty : string) : F :=
  if String.eqb ty "data_aggregation" then lit 50
  else if String.eqb ty "edge_analytics" then lit 100
  else if String.eqb ty "preprocessing" then lit 25
  else if String.eqb ty "caching" then lit 10
  else lit 50.

(** The defaults of lines 357-405, in the order of the source: the
    energy default reads the CPU cost after its own default. *)
Definition applyDefaults (task : Task F) : Task F :=
  let task :=
    if (CPUCost task =? lit 0)%fl
    then with_CPUCost (defaultCPUCost (Type_ task)) task else task in
  let task :=
    if (RAMCost task =? lit 0)%fl
    then with_RAMCost (defaultRAMCost (Type_ task)) task else task in
  let task :=
    if (StorageCost task =? lit 0)%fl
    then with_StorageCost (defaultStorageCost (Type_ task)) task else task in
  let task :=
    if (EnergyCost task =? lit 0)%fl
    then with_EnergyCost (CPUCost task * lit 0.5)%fl task else task in
  if (NetworkLatency task =? 0)%Z
  then with_NetworkLatency (10 * Millisecond)%Z task else task.

(** The task as it stands before the gates: defaults, score, id and
    submission time.  [now] is what time.Now().UnixNano() returns. *)
Definition prepareTask (body : Task F) (now : Z) : Task F :=
  let task := applyDefaults body in
  let task := with_SmartScore (calculateScore task) task in
  let task := with_ID ("task-" +:+ itoa now) task in
  with_SubmittedAt now task.

Definition overloadReason (load : F) (qs : Z) : string :=
  "Nœud surchargé: charge=" +:+ fmt2f load +:+ ", taille_queue=" +:+ itoa qs.

Definition resourceReason (task : Task F) (cpu ram sto : F) : string :=
  "Ressources insuffisantes: CPU=" +:+ fmt2f (CPUCost task) +:+ "/" +:+
  fmt2f cpu +:+ ", RAM=" +:+ fmt2f (RAMCost task) +:+ "/" +:+ fmt2f ram +:+
  ", Storage=" +:+ fmt2f (StorageCost task) +:+ "/" +:+ fmt2f sto.

Definition energyReason (energy : F) : string :=
  "Niveau d'énergie bas pour tâche critique: énergie=" +:+ fmt2f energy.

(** The three gates, each true when it rejects. *)
Definition overloadGate (snap : Snapshot) : bool :=
  (currentLoad snap >? MaxLoadThreshold)%fl || (50 <? queueSize snap)%Z.

Definition resourceGate (task : Task F) (cpu ram sto : F) : bool :=
  (CPUCost task >? cpu)%fl || (RAMCost task >? ram)%fl ||
  (StorageCost task >? sto)%fl.

Definition energyGate (task : Task F) (snap : Snapshot) : bool :=
  (4 <=? Criticality task)%Z && (snapEnergy snap <? lit 0.3)%fl.

(** The gates in the order of the source, with the reason of the first
    that rejects; [None] lets the task through. *)
Definition gates (snap : Snapshot) (task : Task F) : option string :=
  if overloadGate snap then
    Some (overloadReason (currentLoad snap) (queueSize snap))
  else if resourceGate task (snapCPU snap) (snapRAM snap) (snapStorage snap)
  then
    Some (resourceReason task (snapCPU snap) (snapRAM snap) (snapStorage snap))
  else if energyGate task snap then Some (energyReason (snapEnergy snap))
  else None.

(** The critical section that reserves the resources, stores the task
    and pushes it onto the priority queue.  [&task] is a fresh address. *)
Definition enqueue (fc : FogCompute) (task : Task F) : FogCompute :=
  let p := length (heapObjs fc) in
  let objs := heapObjs fc ++ [task] in
  {| node := node fc;
     tasks := <[ID task := p]> (tasks fc);
     taskHeap := heap_Push (TaskHeap_Less objs) (taskHeap fc) p;
     rejectedTasks := rejectedTasks fc;
     metrics := metrics fc;
     availableCPU := (availableCPU fc - CPUCost task)%fl;
     availableRAM := (availableRAM fc - RAMCost task)%fl;
     availableStorage := (availableStorage fc - StorageCost task)%fl;
     energyLevel := (energyLevel fc - EnergyCost task)%fl;
     heapObjs := objs;
     workerPool := workerPool fc |}.

Inductive Response :=
| OK (task : Task F)                  (* 200, the task as JSON *)
| OKMessage (task : Task F)           (* 200, message and task *)
| OKCount (count : Z)                 (* 200, message and count *)
| BadRequest                          (* 400 *)
| NotFound                            (* 404 *)
| ServiceUnavailable (reason : string) (* 503 *).

(** The handler after the read lock is released: [snap] is what it read.
    [body] is the decoded request, [None] when decoding fails. *)
Definition submitWith (snap : Snapshot) (body : option (Task F)) (now : Z)
    (fc : FogCompute) : FogCompute * Response :=
  match body with
  | None => (fc, BadRequest)
  | Some body =>
      let task := prepareTask body now in
      match gates snap task with
      | Some reason =>
          (rejectTask fc (with_Status "rejected" task) reason
             (currentLoad snap) (queueSize snap) now,
           ServiceUnavailable reason)
      | None =>
          let task := with_Status "queued" task in
          (enqueue fc task, OK task)
      end
  end.

Definition handleSubmitTask (body : option (Task F)) (now : Z)
    (fc : FogCompute) : FogCompute * Response :=
  submitWith (snapshot fc) body now fc.

(** *** handleGetTask *)

Definition handleGetTask (taskID : string) (fc : FogCompute) : Response :=
  match tasks fc !! taskID with
  | None => NotFound
  | Some p =>
      match heapObjs fc !! p with
      | Some task => OK task
      | None => NotFound
      end
  end.

(** *** The rejection queue *)

Definition handleGetRejectedTasks (fc : FogCompute)
    : Z * list (RejectedTask F) :=
  (Z.of_nat (length (rejectedTasks fc)), rejectedTasks fc).

(** The loop of handleRetryRejectedTask: index and task of the first
    entry with the given id. *)
Fixpoint findRejected (taskID : string) (l : list (RejectedTask F))
    : option (nat * Task F) :=
  match l with
  | [] => None
  | rt :: l' =>
      if String.eqb (ID (rt_Task rt)) taskID then Some (0, rt_Task rt)
      else match findRejected taskID l' with
           | Some (i, t) => Some (S i, t)
           | None => None
           end
  end.

Definition removeRejected (foundIndex : nat) (fc : FogCompute) : FogCompute :=
  {| node := node fc;
     tasks := tasks fc;
     taskHeap := taskHeap fc;
     rejectedTasks := delete foundIndex (rejectedTasks fc);
     metrics := metrics fc;
     availableCPU := availableCPU fc;
     availableRAM := availableRAM fc;
     availableStorage := availableStorage fc;
     energyLevel := energyLevel fc;
     heapObjs := heapObjs fc;
     workerPool := workerPool fc |}.

Definition retryReason : string :=
  "Ressources toujours insuffisantes pour réessayer la tâche".

Definition handleRetryRejectedTask (taskID : string) (now : Z)
    (fc : FogCompute) : FogCompute * Response :=
  match findRejected taskID (rejectedTasks fc) with
  | None => (fc, NotFound)
  | Some (foundIndex, taskToRetry) =>
      if resourceGate taskToRetry (availableCPU fc) (availableRAM fc)
           (availableStorage fc)
      then (fc, ServiceUnavailable retryReason)
      else
        let taskToRetry := with_Status "queued" taskToRetry in
        let taskToRetry := with_SubmittedAt now taskToRetry in
        let taskToRetry :=
          with_SmartScore (calculateScore taskToRetry) taskToRetry in
        (enqueue (removeRejected foundIndex fc) taskToRetry,
         OKMessage taskToRetry)
  end.

Definition handleClearRejectedTasks (fc : FogCompute)
    : FogCompute * Response :=
  ({| node := node fc;
      tasks := tasks fc;
      taskHeap := taskHeap fc;
      rejectedTasks := [];
      metrics := metrics fc;
      availableCPU := availableCPU fc;
      availableRAM := availableRAM fc;
      availableStorage := availableStorage fc;
      energyLevel := energyLevel fc;
      heapObjs := heapObjs fc;
      workerPool := workerPool fc |},
   OKCount (Z.of_nat (length (rejectedTasks fc)))).

(** *** Workers *)

(** The first critical section of [worker]: with an empty queue the
    worker stays in cond.Wait. *)
Definition workerPop (w : nat) (fc : FogCompute) : FogCompute :=
  match workerPool fc !! w with
  | Some Idle =>
      match heap_Pop (TaskHeap_Less (heapObjs fc)) (taskHeap fc) with
      | Some (p, h) =>
          {| node := node fc;
             tasks := tasks fc;
             taskHeap := h;
             rejectedTasks := rejectedTasks fc;
             metrics := metrics fc;
             availableCPU := availableCPU fc;
             availableRAM := availableRAM fc;
             availableStorage := availableStorage fc;
             energyLevel := energyLevel fc;
             heapObjs := heapObjs fc;
             workerPool := <[w := Popped p]> (workerPool fc) |}
      | None => fc
      end
  | _ => fc
  end.

(** [processTask] up to the handler call: the task is marked. *)
Definition processBegin (w : nat) (now : Z) (fc : FogCompute) : FogCompute :=
  match workerPool fc !! w with
  | Some (Popped p) =>
      {| node := node fc;
         tasks := tasks fc;
         taskHeap := taskHeap fc;
         rejectedTasks := rejectedTasks fc;
         metrics := metrics fc;
         availableCPU := availableCPU fc;
         availableRAM := availableRAM fc;
         availableStorage := availableStorage fc;
         energyLevel := energyLevel fc;
         heapObjs := alter (with_Status "processing") p (heapObjs fc);
         workerPool := <[w := Running p now]> (workerPool fc) |}
  | _ => fc
  end.

Definition runHandler (ty : string) : HandlerResult :=
  if String.eqb ty "data_aggregation" then AggregateData
  else if String.eqb ty "edge_analytics" then PerformAnalytics
  else if String.eqb ty "preprocessing" then PreprocessData
  else if String.eqb ty "caching" then CacheData
  else UnknownType.

Definition recordLatency (latency : Z) (m : Metrics) : Metrics :=
  {| TasksProcessed := wrap64 (TasksProcessed m + 1);
     TasksRejected := TasksRejected m;
     AvgLatency := if (AvgLatency m =? 0)%Z then latency
                   else Z.quot (wrap64 (AvgLatency m + latency)) 2;
     CurrentLoad := CurrentLoad m |}.

(** [processTask] after the handler returned: completion, release of
    the four reserved costs, metrics. *)
Definition processEnd (w : nat) (now : Z) (fc : FogCompute) : FogCompute :=
  match workerPool fc !! w with
  | Some (Running p startTime) =>
      match heapObjs fc !! p with
      | Some task =>
          {| node := node fc;
             tasks := tasks fc;
             taskHeap := taskHeap fc;
             rejectedTasks := rejectedTasks fc;
             metrics := recordLatency (wrap64 (now - startTime)) (metrics fc);
             availableCPU := (availableCPU fc + CPUCost task)%fl;
             availableRAM := (availableRAM fc + RAMCost task)%fl;
             availableStorage := (availableStorage fc + StorageCost task)%fl;
             energyLevel := (energyLevel fc + EnergyCost task)%fl;
             heapObjs :=
               <[p := with_completion (runHandler (Type_ task)) now task]>
                 (heapObjs fc);
             workerPool := <[w := Idle]> (workerPool fc) |}
      | None => fc
      end
  | _ => fc
  end.

(** [processTask] and one turn of the loop of [worker], when nothing
    else runs in between. *)
Definition processTask (w : nat) (startTime completedAt : Z)
    (fc : FogCompute) : FogCompute :=
  processEnd w completedAt (processBegin w startTime fc).

Definition worker (w : nat) (startTime completedAt : Z)
    (fc : FogCompute) : FogCompute :=
  processTask w startTime completedAt (workerPop w fc).

(** *** updateMetrics, one tick *)

Definition updateMetrics (now : Z) (fc : FogCompute) : FogCompute :=
  let load := (of_int (Z.of_nat (length (taskHeap fc))) / lit 100)%fl in
  {| node := {| node_ID := node_ID (node fc); Location := Location (node fc);
                node_Status := node_Status (node fc); Load := load;
                LastSeen := now |};
     tasks := tasks fc;
     taskHeap := taskHeap fc;
     rejectedTasks := rejectedTasks fc;
     metrics := {| TasksProcessed := TasksProcessed (metrics fc);
                   TasksRejected := TasksRejected (metrics fc);
                   AvgLatency := AvgLatency (metrics fc);
                   CurrentLoad := load |};
     availableCPU := availableCPU fc;
     availableRAM := availableRAM fc;
     availableStorage := availableStorage fc;
     energyLevel := energyLevel fc;
     heapObjs := heapObjs fc;
     workerPool := workerPool fc |}.

(** ** Runs

    What can happen to a node, one critical section at a time.
    [SubmitTaskLate] is a submission whose snapshot [snap] was read
    before other goroutines changed the node: the handler releases the
    read lock before it takes the write lock. *)
Inductive Event :=
| SubmitTask (body : option (Task F)) (now : Z)
| SubmitTaskLate (snap : Snapshot) (body : option (Task F)) (now : Z)
| RetryRejectedTask (taskID : string) (now : Z)
| ClearRejectedTasks
| WorkerPop (w : nat)
| WorkerBegin (w : nat) (now : Z)
| WorkerEnd (w : nat) (now : Z)
| Tick (now : Z).

Definition step (fc : FogCompute) (e : Event) : FogCompute :=
  match e with
  | SubmitTask body now => fst (handleSubmitTask body now fc)
  | SubmitTaskLate snap body now => fst (submitWith snap body now fc)
  | RetryRejectedTask taskID now => fst (handleRetryRejectedTask taskID now fc)
  | ClearRejectedTasks => fst (handleClearRejectedTasks fc)
  | WorkerPop w => workerPop w fc
  | WorkerBegin w now => processBegin w now fc
  | WorkerEnd w now => processEnd w now fc
  | Tick now => updateMetrics now fc
  end.

Definition run (fc : FogCompute) (evs : list Event) : FogCompute :=
  foldl step fc evs.

End Node.

Arguments Metrics F : clear implicits.
Arguments FogCompute F : clear implicits.
Arguments Snapshot F : clear implicits.
Arguments Response F : clear implicits.
Arguments Event F : clear implicits.

(** ** Requests used in examples *)

(** A decoded request body: the costs are the float64 values of the
    decimal numbers in the JSON text. *)
Definition request {F} `{Float64 F} (ty : string) (priority criticality : Z)
    (cpu ram sto energy : Q) : Task F :=
  {| ID := ""; Type_ := ty; Priority := priority; Criticality := criticality;
     SmartScore := lit 0; EstimatedLatency := 0; CPUCost := lit cpu;
     RAMCost := lit ram; StorageCost := lit sto; EnergyCost := lit energy;
     NetworkLatency := 0; Status := ""; Result := None; SubmittedAt := 0;
     CompletedAt := None |}.

Arguments request {F _} ty%_string (priority criticality)%_Z
  (cpu ram sto energy)%_Q.

(** A request that names only its type and priority. *)
Definition bare {F} `{Float64 F} (ty : string) (priority : Z) : Task F :=
  request ty priority 0 0 0 0 0.

(** ** Vocabulary of the properties *)

Section Vocabulary.
Context {F : Type} {FO : Float64 F}.
Implicit Types (fc : FogCompute F) (task : Task F) (objs : list (Task F)).

(** A holder of a task address claims the status the task must have:
    a worker that has popped a task has not marked it yet, a worker
    inside [processTask] has. *)
Definition worker_claim (w : Worker) : option (nat * string) :=
  match w with
  | Idle => None
  | Popped p => Some (p, "queued")
  | Running p _ => Some (p, "processing")
  end.

Definition queue_claim (p : nat) : nat * string := (p, "queued").

(** The claims of the priority queue and of the workers. *)
Definition owned fc : list (nat * string) :=
  (queue_claim <$> taskHeap fc) ++ omap worker_claim (workerPool fc).

(** The address of the claim holds a task of the claimed status. *)
Definition claim_holds objs (c : nat * string) : Prop :=
  exists task, objs !! c.1 = Some task /\ Status task = c.2.

(** No address is held twice and every claim holds. *)
Definition wf fc : Prop :=
  NoDup (owned fc).*1 /\ Forall (claim_holds (heapObjs fc)) (owned fc).

(** Every pointer in the task store points to a task. *)
Definition store_valid fc : Prop :=
  forall taskID p, tasks fc !! taskID = Some p -> p < length (heapObjs fc).









(** [x == x]: every float64 but NaN. *)
Definition is_number (x : F) : Prop := (x =? x)%fl = true.

(** The address holds a task whose score is a number. *)
Definition scored objs (p : nat) : Prop :=
  exists task, objs !! p = Some task /\ is_number (SmartScore task).

(** Requests whose score is a number. *)
Definition numbered (e : Event F) : Prop :=
  match e with
  | SubmitTask (Some body) _ | SubmitTaskLate _ (Some body) _ =>
      is_number (calculateScore (applyDefaults body))
  | _ => True
  end.

(** The priority queue is in heap order and every score that is or may
    come to be in it (through a retry) is a number. *)
Definition sched_ok fc : Prop :=
  heap_ok (TaskHeap_Less (heapObjs fc)) (taskHeap fc) /\
  Forall (scored (heapObjs fc)) (taskHeap fc) /\
  Forall (fun rt => is_number (calculateScore (rt_Task rt))) (rejectedTasks fc).

End Vocabulary.

Section ExactVocabulary.
Local Open Scope Q_scope.
Implicit Types (fc : FogCompute Q) (task : Task Q) (objs : list (Task Q)).




Definition nonnegQ task : Prop :=
  0 <= CPUCost task /\ 0 <= RAMCost task /\ 0 <= StorageCost task /\
  0 <= EnergyCost task.


End ExactVocabulary.

Section Rank.
Local Open Scope Z_scope.

(** The rank of an IEEE 754 value other than NaN: sign class, exponent
    and mantissa, compared lexicographically. *)
Definition sf_rank (f : spec_float) : option (Z * Z * Z) :=
  match f with
  | S754_nan => None
  | S754_zero _ => Some (0, 0, 0)
  | S754_infinity s => Some (if s then -2 else 2, 0, 0)
  | S754_finite s m e =>
      Some (if s then (-1, - e, - Zpos m) else (1, e, Zpos m))
  end.

Definition lex3 (a b : Z * Z * Z) : comparison :=
  let '(a1, a2, a3) := a in
  let '(b1, b2, b3) := b in
  match a1 ?= b1 with
  | Eq => match a2 ?= b2 with Eq => a3 ?= b3 | r => r end
  | r => r
  end.

End Rank.

(** ** The pages of the node *)

Section Pages.
Context {F : Type} {FO : Float64 F}.

(** GET /status: a copy of the node record. *)
Definition handleGetStatus (fc : FogCompute F) : FogNode F := node fc.

(** GET /health: the status text and the node id. *)
Definition handleHealth (fc : FogCompute F) : string * string :=
  ("healthy", node_ID (node fc)).

End Pages.

(** ** Vocabulary of the bookkeeping properties *)

Section Bookkeeping.
Context {F : Type} {FO : Float64 F}.
Implicit Types (fc : FogCompute F) (task t : Task F) (objs : list (Task F)).

(** What a task is once it is stored: everything but its status, its
    result and its completion time. *)
Definition same_request (t t' : Task F) : Prop :=
  ID t' = ID t /\ Type_ t' = Type_ t /\ Priority t' = Priority t /\
  Criticality t' = Criticality t /\ SmartScore t' = SmartScore t /\
  EstimatedLatency t' = EstimatedLatency t /\ CPUCost t' = CPUCost t /\
  RAMCost t' = RAMCost t /\ StorageCost t' = StorageCost t /\
  EnergyCost t' = EnergyCost t /\ NetworkLatency t' = NetworkLatency t /\
  SubmittedAt t' = SubmittedAt t.

(** The status [s'] is [s] or a later one on the way queued,
    processing, completed. *)
Definition forward (s s' : string) : Prop :=
  s' = s \/
  (s = "queued" /\ (s' = "processing" \/ s' = "completed")) \/
  (s = "processing" /\ s' = "completed").

(** The statuses of a stored task, with what a completed task carries. *)
Definition stored_status (t : Task F) : Prop :=
  Status t = "queued" \/ Status t = "processing" \/
  (Status t = "completed" /\ Result t = Some (runHandler (Type_ t)) /\
   exists completedAt, CompletedAt t = Some completedAt).

(** Every id of the task store leads to a task of that id. *)
Definition store_ids fc : Prop :=
  forall taskID p, tasks fc !! taskID = Some p ->
    exists t, heapObjs fc !! p = Some t /\ ID t = taskID.


(** The score a task carries is the score of its attributes. *)
Definition self_scored (t : Task F) : Prop := SmartScore t = calculateScore t.

(** The number of tasks marked "completed". *)
Definition completed_count objs : nat :=
  length (filter (fun t => Status t = "completed") objs).

(** The counters after [n] steps, when the counter update that ends
    processTask is taken together with the completion before it:
    tasks_processed is the number of completed tasks, tasks_rejected is
    at least the length of the rejection queue, and neither exceeds
    [n]. *)
Definition counted fc (n : Z) : Prop :=
  (TasksProcessed (metrics fc) = Z.of_nat (completed_count (heapObjs fc)) /\
   TasksProcessed (metrics fc) <= n /\
   Z.of_nat (length (rejectedTasks fc)) <= TasksRejected (metrics fc) /\
   TasksRejected (metrics fc) <= n)%Z.

(** Steps of a run without retries in which every submission commits
    on the snapshot it has just read. *)
Definition unretried (e : Event F) : Prop :=
  match e with
  | SubmitTaskLate _ _ _ | RetryRejectedTask _ _ => False
  | _ => True
  end.

(** The clock reading of the last metrics tick of a run, [t0] when
    there was none. *)
Definition lastTick (t0 : Z) (evs : list (Event F)) : Z :=
  foldl (fun acc e => match e with Tick now => now | _ => acc end) t0 evs.

End Bookkeeping.

(** ** Concrete nodes, requests and runs *)

Definition node64 : FogCompute float := NewFogCompute "fog-node-1" "edge-site-1" 0.

Definition nodeQ : FogCompute Q := NewFogCompute "fog-node-1" "edge-site-1" 0.

(** A data_aggregation request with default costs is admitted and a
    worker starts on it; a preprocessing request with default costs is
    admitted and a second worker starts on it; the first task
    completes, then the second. *)
Definition two_defaults {F} `{Float64 F} : list (Event F) :=
  [SubmitTask (Some (bare "data_aggregation" 1)) 1;
   WorkerPop 0; WorkerBegin 0 2;
   SubmitTask (Some (bare "preprocessing" 1)) 3;
   WorkerPop 1; WorkerBegin 1 4;
   WorkerEnd 0 5; WorkerEnd 1 6].


(** A request with cpu and ram cost -1e308 and energy cost 1e308
    passes the gates; its resource penalty is -Inf, its energy penalty
    +Inf, and its score NaN. *)
Definition nan_request : Task float :=
  request "caching" 1 0 (-1e308) (-1e308) 1 1e308.

Definition nan_run : list (Event float) :=
  [SubmitTask (Some (bare "caching" 1)) 1;
   SubmitTask (Some nan_request) 2;
   SubmitTask (Some (bare "caching" 2)) 3;
   SubmitTask (Some (bare "caching" 0)) 4].

(** A node whose energy level is down to 0.1 after it admitted one task
    of energy cost 0.9. *)
Definition low_energy {F} `{Float64 F} : FogCompute F :=
  run (NewFogCompute "fog-node-1" "edge-site-1" 0)
      [SubmitTask (Some (request "caching" 1 1 0.1 0.1 1 0.9)) 1].

(** 51 small tasks, queued. *)
Definition full_queue {F} `{Float64 F} : FogCompute F :=
  run (NewFogCompute "fog-node-1" "edge-site-1" 0)
      ((fun k => SubmitTask (Some (request "caching" 3 1 0.001 0.001 1 0.001))
                            (Z.of_nat k)) <$> seq 1 51).

(** A request of criticality 5 and a request of cpu cost 5. *)
Definition critical_request {F} `{Float64 F} : Task F :=
  request "caching" 1 5 0.1 0.1 1 0.1.

Definition greedy_request {F} `{Float64 F} : Task F :=
  request "caching" 1 1 5 0.1 1 0.1.

(** The low-energy node after it rejected, in this order, the request
    of criticality 5 (energy gate, id "task-2") and the request of cpu
    cost 5 (resource gate, id "task-3"). *)
Definition after_rejections {F} `{Float64 F} : FogCompute F :=
  run low_energy
      [SubmitTask (Some critical_request) 2; SubmitTask (Some greedy_request) 3].

(** The fresh node after it admitted a bare caching request at clock
    reading 7. *)
Definition after_caching : FogCompute float :=
  fst (submitWith (snapshot node64) (Some (bare "caching" 1)) 7 node64).

(** * Properties *)

(** ** container/heap: order and contents *)

Section HeapTheory.
Context {A : Type} (Less : A -> A -> bool).

Lemma parent_lt j : 0 < j -> parent j < j.
Proof.
  intros Hj. unfold parent.
  apply Nat.Div0.div_lt_upper_bound. lia.
Qed.

Lemma parent_children k i :
  0 < k -> parent k = i -> k = 2 * i + 1 \/ k = 2 * i + 1 + 1.
Proof.
  unfold parent. intros Hk <-.
  pose proof (Nat.div_mod_eq (k - 1) 2) as E.
  assert ((k - 1) mod 2 < 2) as B by (apply Nat.mod_upper_bound; lia).
  lia.
Qed.

Lemma parent_left i : parent (2 * i + 1) = i.
Proof.
  unfold parent. replace (2 * i + 1 - 1) with (i * 2) by lia.
  apply Nat.div_mul. lia.
Qed.

Lemma parent_right i : parent (2 * i + 1 + 1) = i.
Proof.
  unfold parent. replace (2 * i + 1 + 1 - 1) with (1 + i * 2) by lia.
  rewrite Nat.div_add by lia. reflexivity.
Qed.

(** *** Swap *)

Lemma Swap_length (h : list A) i j : length (Swap h i j) = length h.
Proof.
  unfold Swap. destruct (h !! i), (h !! j); auto.
  by rewrite !length_insert.
Qed.

Lemma Swap_perm (h : list A) i j : Swap h i j ≡ₚ h.
Proof.
  unfold Swap.
  destruct (h !! i) as [x|] eqn:Hi, (h !! j) as [y|] eqn:Hj; auto.
  by apply Permutation_insert_swap.
Qed.

Lemma Swap_lookup (h : list A) i j x y k :
  h !! i = Some x -> h !! j = Some y ->
  Swap h i j !! k =
    if decide (k = i) then Some y else if decide (k = j) then Some x else h !! k.
Proof.
  intros Hi Hj. unfold Swap. rewrite Hi, Hj.
  pose proof (lookup_lt_Some _ _ _ Hi). pose proof (lookup_lt_Some _ _ _ Hj).
  destruct (decide (k = i)) as [->|Hki].
  - apply list_lookup_insert_eq. by rewrite length_insert.
  - rewrite list_lookup_insert_ne by done.
    destruct (decide (k = j)) as [->|Hkj].
    + by apply list_lookup_insert_eq.
    + by rewrite list_lookup_insert_ne.
Qed.

(** *** The loops, one iteration at a time *)

Lemma up_S fuel (h : list A) j :
  up Less (S fuel) h j =
    if bool_decide (parent j = j) || negb (less_at Less h j (parent j)) then h
    else up Less fuel (Swap h (parent j) j) (parent j).
Proof. reflexivity. Qed.

Lemma down_S fuel (h : list A) i n :
  down Less (S fuel) h i n =
    if bool_decide (n <= 2 * i + 1) then h
    else if negb (less_at Less h (child Less h i n) i) then h
    else down Less fuel (Swap h i (child Less h i n)) (child Less h i n) n.
Proof. reflexivity. Qed.

Lemma child_cases (h : list A) i n :
  2 * i + 1 < n ->
  (child Less h i n = 2 * i + 1 /\
   (2 * i + 1 + 1 < n -> less_at Less h (2 * i + 1 + 1) (2 * i + 1) = false)) \/
  (child Less h i n = 2 * i + 1 + 1 /\ 2 * i + 1 + 1 < n /\
   less_at Less h (2 * i + 1 + 1) (2 * i + 1) = true).
Proof.
  intros Hn. unfold child. case_bool_decide as H2; simpl.
  - destruct (less_at _ _ _ _) eqn:E; [right|left]; auto.
  - left. split; [done|]. intros; lia.
Qed.

Lemma child_bounds (h : list A) i n :
  2 * i + 1 < n -> i < child Less h i n < n.
Proof. intros Hn. destruct (child_cases h i n Hn) as [[-> _]|(-> & ? & _)]; lia. Qed.

(** *** The loops keep the contents *)

Lemma up_perm fuel (h : list A) j : up Less fuel h j ≡ₚ h.
Proof.
  revert h j. induction fuel as [|fuel IH]; intros h j; [done|].
  rewrite up_S. destruct (bool_decide _ || _); [done|].
  rewrite IH. apply Swap_perm.
Qed.

Lemma down_perm fuel (h : list A) i n : down Less fuel h i n ≡ₚ h.
Proof.
  revert h i. induction fuel as [|fuel IH]; intros h i; [done|].
  rewrite down_S. destruct (bool_decide (n <= _)); [done|].
  destruct (negb _); [done|].
  rewrite IH. apply Swap_perm.
Qed.

Lemma down_length fuel (h : list A) i n : length (down Less fuel h i n) = length h.
Proof. apply Permutation_length, down_perm. Qed.

(** [down] within the first [n] elements leaves the others in place. *)
Lemma down_lookup_ge fuel (h : list A) i n k :
  n <= k -> down Less fuel h i n !! k = h !! k.
Proof.
  revert h i. induction fuel as [|fuel IH]; intros h i Hk; [done|].
  rewrite down_S. case_bool_decide as Hj1; [done|].
  pose proof (child_bounds h i n ltac:(lia)) as Hc.
  destruct (negb _); [done|].
  rewrite IH by lia.
  unfold Swap. destruct (h !! i) eqn:E1, (h !! child Less h i n) eqn:E2; try done.
  rewrite !list_lookup_insert_ne by lia. done.
Qed.

(** The bound on the iterations does not matter once it is above what
    the loop can use. *)
Lemma up_fuel fuel fuel' (h : list A) j :
  j < fuel -> j < fuel' -> up Less fuel h j = up Less fuel' h j.
Proof.
  revert fuel' h j. induction fuel as [|fuel IH]; intros fuel' h j Hf Hf'; [lia|].
  destruct fuel' as [|fuel']; [lia|].
  rewrite !up_S. case_bool_decide as Hroot; simpl; [done|].
  destruct (negb _); [done|].
  assert (0 < j) as Hj by (destruct j; [done|lia]).
  pose proof (parent_lt j Hj). apply IH; lia.
Qed.

Lemma down_fuel fuel fuel' (h : list A) i n :
  n < i + fuel -> n < i + fuel' ->
  down Less fuel h i n = down Less fuel' h i n.
Proof.
  revert fuel' h i. induction fuel as [|fuel IH]; intros fuel' h i Hf Hf'.
  { destruct fuel' as [|fuel']; [done|].
    rewrite down_S. rewrite bool_decide_eq_true_2 by lia. done. }
  destruct fuel' as [|fuel'].
  { rewrite down_S. rewrite bool_decide_eq_true_2 by lia. done. }
  rewrite !down_S. case_bool_decide as Hleaf; [done|].
  destruct (negb _); [done|].
  pose proof (child_bounds h i n ltac:(lia)). apply IH; lia.
Qed.

Lemma heap_Push_perm (h : list A) x : heap_Push Less h x ≡ₚ x :: h.
Proof.
  unfold heap_Push. rewrite up_perm. by rewrite Permutation_app_comm.
Qed.

Lemma heap_Pop_nonempty (h : list A) :
  h <> [] -> exists p h', heap_Pop Less h = Some (p, h').
Proof.
  intros Hne. unfold heap_Pop.
  destruct (length h) as [|n] eqn:Hlen.
  { destruct h; simpl in *; congruence. }
  set (h1 := down _ _ _ _ _).
  destruct (lookup_lt_is_Some_2 h1 n) as [p Hp].
  { subst h1. rewrite down_length, Swap_length. lia. }
  rewrite Hp. eauto.
Qed.

Lemma heap_Pop_perm (h : list A) p h' :
  heap_Pop Less h = Some (p, h') -> h ≡ₚ p :: h'.
Proof.
  unfold heap_Pop. destruct (length h) as [|n] eqn:Hlen; [done|].
  set (h1 := down _ _ _ _ _).
  destruct (h1 !! n) as [item|] eqn:Hitem; [|done].
  intros [= <- <-].
  assert (length h1 = S n) as Hl1.
  { subst h1. by rewrite down_length, Swap_length. }
  assert (h1 = take n h1 ++ [item]) as E.
  { rewrite <- (take_drop n h1) at 1. f_equal.
    rewrite (drop_S _ _ _ Hitem). rewrite drop_ge by lia. done. }
  transitivity h1.
  - subst h1. rewrite down_perm. by rewrite Swap_perm.
  - rewrite E at 1. by rewrite Permutation_app_comm.
Qed.

(** *** Order

    [Less] need only behave as an order on the elements that satisfy
    [P]: it is asymmetric, and "not less" is transitive through an
    element of [P]. *)

Section Order.
Context (P : A -> Prop).
Hypothesis Less_asym : forall x y, Less x y = true -> Less y x = false.
Hypothesis Less_ntrans : forall x y z,
  P y -> Less y x = false -> Less z y = false -> Less z x = false.

Lemma Less_irrefl x : Less x x = false.
Proof.
  pose proof (Less_asym x x) as H.
  destruct (Less x x); [by apply H|done].
Qed.

Lemma Forall_lookup_P (h : list A) k x : Forall P h -> h !! k = Some x -> P x.
Proof. intros HP Hk. by eapply Forall_lookup_1. Qed.

Lemma up_ok fuel (h : list A) j :
  j < fuel -> Forall P h -> up_inv Less h j -> heap_ok Less (up Less fuel h j).
Proof.
  revert h j. induction fuel as [|fuel IH]; intros h j Hf HP [Ha Hb]; [lia|].
  rewrite up_S. case_bool_decide as Hroot; simpl.
  { (* at the root *)
    assert (j = 0) as -> by (destruct j; [done|]; pose proof (parent_lt (S j)); lia).
    intros k x y Hk Hx Hy. eapply (Ha k); eauto; lia. }
  assert (0 < j) as Hj by (destruct j; [done|lia]).
  pose proof (parent_lt j Hj) as Hpj.
  destruct (less_at Less h j (parent j)) eqn:Hless; simpl.
  2:{ intros k x y Hk Hx Hy. destruct (decide (k = j)) as [->|Hne].
      - unfold less_at in Hless. by rewrite Hx, Hy in Hless.
      - eapply (Ha k); eauto; lia. }
  unfold less_at in Hless.
  destruct (h !! j) as [x|] eqn:Hx; [|done].
  destruct (h !! parent j) as [y|] eqn:Hy; [|done].
  assert (P y) as HPy by (by eapply Forall_lookup_P).
  apply IH; [lia| by rewrite Swap_perm |].
  split.
  - intros k a b Hk Hki.
    rewrite !(Swap_lookup h (parent j) j y x) by done.
    destruct (decide (k = parent j)) as [|_]; [done|].
    destruct (decide (k = j)) as [->|Hkj].
    + rewrite decide_True by done. intros [= <-] [= <-]. by apply Less_asym.
    + intros Hka. destruct (decide (parent k = parent j)) as [Hpp|Hpp].
      * intros [= <-]. apply (Less_ntrans _ y); [done|by apply Less_asym|].
        eapply (Ha k); eauto. by rewrite Hpp.
      * destruct (decide (parent k = j)) as [Hpk|Hpk].
        -- intros [= <-]. eapply (Hb k); eauto.
        -- intros Hkb. eapply (Ha k); eauto.
  - intros k a g Hk Hpk Hpos.
    rewrite !(Swap_lookup h (parent j) j y x) by done.
    pose proof (parent_lt _ Hpos) as Hppj.
    pose proof (parent_lt _ Hk) as Hpk'.
    destruct (decide (k = parent j)) as [|_]; [lia|].
    rewrite (decide_False (P := parent (parent j) = parent j)) by lia.
    rewrite (decide_False (P := parent (parent j) = j)) by lia.
    assert (forall g, h !! parent (parent j) = Some g -> Less y g = false) as Hyg.
    { intros g' Hg'. eapply (Ha (parent j)); eauto; lia. }
    destruct (decide (k = j)) as [->|Hkj].
    + intros [= <-] Hg. by apply Hyg.
    + intros Hka Hg. apply (Less_ntrans _ y); [done|by apply Hyg|].
      eapply (Ha k); eauto. by rewrite Hpk.
Qed.

Lemma down_ok fuel (h : list A) i n :
  n < i + fuel -> n <= length h -> Forall P h -> down_inv Less h i n ->
  heap_okn Less (down Less fuel h i n) n.
Proof.
  revert h i. induction fuel as [|fuel IH]; intros h i Hf Hn HP [Ha Hb].
  { intros k x y Hk Hx Hy. pose proof (parent_lt k ltac:(lia)).
    eapply (Ha k); eauto. lia. }
  rewrite down_S. case_bool_decide as Hleaf.
  { intros k x y Hk Hx Hy. eapply (Ha k); eauto.
    intros Hp. destruct (parent_children k i) as [?|?]; [lia|done|lia|lia]. }
  pose proof (child_bounds h i n ltac:(lia)) as Hc.
  set (c := child Less h i n) in *.
  destruct (lookup_lt_is_Some_2 h c ltac:(lia)) as [xc Hxc].
  destruct (lookup_lt_is_Some_2 h i ltac:(lia)) as [v Hv].
  assert (P xc) as HPc by (by eapply Forall_lookup_P).
  assert (parent c = i) as Hpc.
  { destruct (child_cases h i n ltac:(lia)) as [[E _]|(E & _ & _)];
      subst c; rewrite E; [apply parent_left|apply parent_right]. }
  (* the element at [c] is the least child of [i] *)
  assert (forall k a, 0 < k < n -> parent k = i -> h !! k = Some a ->
                      Less a xc = false) as Hleast.
  { intros k a Hk Hpk Hka.
    destruct (parent_children k i ltac:(lia) Hpk) as [Ek|Ek];
    destruct (child_cases h i n ltac:(lia)) as [[E Hlt]|(E & Hlt1 & Hlt2)];
      fold c in E.
    - assert (k = c) as -> by lia. rewrite Hxc in Hka.
      injection Hka as <-. apply Less_irrefl.
    - unfold less_at in Hlt2. rewrite E in Hxc. subst k.
      rewrite Hxc, Hka in Hlt2. by apply Less_asym.
    - unfold less_at in Hlt. rewrite E in Hxc. subst k.
      rewrite Hxc, Hka in Hlt. apply Hlt. lia.
    - assert (k = c) as -> by lia. rewrite Hxc in Hka.
      injection Hka as <-. apply Less_irrefl. }
  unfold less_at. rewrite Hxc, Hv.
  destruct (Less xc v) eqn:Hless; simpl.
  2:{ intros k a b Hk Hka Hkb.
      destruct (decide (parent k = i)) as [Hpk|Hpk].
      - rewrite Hpk, Hv in Hkb. injection Hkb as <-.
        apply (Less_ntrans _ xc); [done|done|]. by eapply (Hleast k).
      - eapply (Ha k); eauto. }
  apply IH; [lia| by rewrite Swap_length | by rewrite Swap_perm |].
  split.
  - intros k a b Hk Hpk.
    rewrite !(Swap_lookup h i c v xc) by done.
    destruct (decide (k = i)) as [->|Hki].
    + assert (0 < i) as Hi by lia. pose proof (parent_lt i Hi).
      rewrite decide_False by lia. rewrite decide_False by lia.
      intros [= <-] Hg. eapply (Hb c); eauto; lia.
    + destruct (decide (k = c)) as [->|Hkc].
      * rewrite decide_True by done. intros [= <-] [= <-]. by apply Less_asym.
      * intros Hka. destruct (decide (parent k = i)) as [Hpki|Hpki].
        -- intros [= <-]. by eapply (Hleast k).
        -- rewrite decide_False by done. intros Hkb. eapply (Ha k); eauto.
  - intros k a g Hk Hpk Hpos.
    rewrite !(Swap_lookup h i c v xc) by done.
    pose proof (parent_lt k ltac:(lia)) as Hlt.
    rewrite (decide_False (P := k = i)) by lia.
    rewrite (decide_False (P := k = c)) by lia.
    rewrite Hpc. rewrite decide_True by done.
    intros Hka [= <-]. eapply (Ha k); eauto; [lia|].
    by rewrite Hpk.
Qed.

(** The root is a least element. *)
Lemma root_min (h : list A) r :
  heap_ok Less h -> Forall P h -> h !! 0 = Some r ->
  forall k x, h !! k = Some x -> Less x r = false.
Proof.
  intros Hok HP Hr k. induction k as [k IH] using lt_wf_ind. intros x Hx.
  destruct (decide (k = 0)) as [->|Hk].
  { rewrite Hr in Hx. injection Hx as <-. apply Less_irrefl. }
  pose proof (parent_lt k ltac:(lia)) as Hp.
  pose proof (lookup_lt_Some _ _ _ Hx) as Hlen.
  destruct (lookup_lt_is_Some_2 h (parent k) ltac:(lia)) as [y Hy].
  apply (Less_ntrans _ y).
  - by eapply Forall_lookup_P.
  - by eapply IH.
  - eapply (Hok k); eauto. lia.
Qed.

Lemma heap_ok_nil : heap_ok Less [].
Proof. intros k x y Hk. simpl in Hk. lia. Qed.

Lemma heap_Push_ok (h : list A) x :
  heap_ok Less h -> Forall P h -> P x -> heap_ok Less (heap_Push Less h x).
Proof.
  intros Hok HP Hx. unfold heap_Push.
  rewrite length_app. simpl.
  replace (length h + 1 - 1) with (length h) by lia.
  apply up_ok; [lia| |].
  { apply Forall_app. split; [done|]. by constructor. }
  split.
  - intros k a b Hk Hne Hka Hkb.
    pose proof (lookup_lt_Some _ _ _ Hka) as Hlen.
    rewrite length_app in Hlen. simpl in Hlen.
    pose proof (parent_lt k Hk).
    rewrite lookup_app_l in Hka by lia.
    rewrite lookup_app_l in Hkb by lia.
    eapply (Hok k); eauto. lia.
  - intros k a g Hk Hpk Hj Hka Hg.
    pose proof (lookup_lt_Some _ _ _ Hka) as Hlen.
    rewrite length_app in Hlen. simpl in Hlen.
    pose proof (parent_lt k Hk). lia.
Qed.

Lemma heap_Pop_root (h : list A) p h' :
  heap_Pop Less h = Some (p, h') -> h !! 0 = Some p.
Proof.
  unfold heap_Pop. destruct (length h) as [|n] eqn:Hlen; [done|].
  rewrite down_lookup_ge by done.
  destruct (lookup_lt_is_Some_2 h 0 ltac:(lia)) as [r Hr].
  destruct (lookup_lt_is_Some_2 h n ltac:(lia)) as [l Hl].
  rewrite (Swap_lookup h 0 n r l) by done.
  destruct (decide (n = 0)) as [->|Hn0].
  - rewrite Hr in Hl. injection Hl as <-. by intros [= <- _].
  - rewrite decide_True by done. by intros [= <- _].
Qed.

Lemma heap_Pop_ok (h : list A) p h' :
  heap_ok Less h -> Forall P h -> heap_Pop Less h = Some (p, h') ->
  heap_ok Less h' /\ forall x, x ∈ h -> Less x p = false.
Proof.
  intros Hok HP Hpop. split.
  2:{ intros x Hx. apply list_elem_of_lookup in Hx as [k Hk].
      eapply root_min; eauto. by eapply heap_Pop_root. }
  revert Hpop. unfold heap_Pop.
  destruct (length h) as [|n] eqn:Hlen; [done|].
  set (h1 := down _ _ _ _ _).
  destruct (h1 !! n) as [item|] eqn:Hitem; [|done].
  intros [= _ <-].
  assert (heap_okn Less h1 n) as H1.
  { subst h1. apply down_ok; [lia| rewrite Swap_length; lia
                              | by rewrite Swap_perm |].
    destruct (lookup_lt_is_Some_2 h 0 ltac:(lia)) as [r Hr].
    destruct (lookup_lt_is_Some_2 h n ltac:(lia)) as [l Hl].
    split.
    - intros k a b Hk Hpk.
      pose proof (parent_lt k ltac:(lia)).
      rewrite !(Swap_lookup h 0 n r l) by done.
      rewrite (decide_False (P := k = 0)) by lia.
      rewrite (decide_False (P := k = n)) by lia.
      rewrite (decide_False (P := parent k = 0)) by lia.
      rewrite (decide_False (P := parent k = n)) by lia.
      intros Hka Hkb. eapply (Hok k); eauto. lia.
    - intros k a g Hk Hpk Hpos. lia. }
  assert (length h1 = S n) as Hl1.
  { subst h1. by rewrite down_length, Swap_length. }
  intros k a b Hk.
  rewrite length_take in Hk.
  pose proof (parent_lt k ltac:(lia)).
  rewrite !lookup_take_lt by lia.
  apply H1. lia.
Qed.

End Order.

End HeapTheory.

(** ** The handlers *)

Section Handlers.
Context {F : Type} {FO : Float64 F}.
Implicit Types (fc : FogCompute F) (task body : Task F) (snap : Snapshot F).

(** *** What the defaults and the stamps leave alone *)

Lemma applyDefaults_fixed body :
  Type_ (applyDefaults body) = Type_ body /\
  Priority (applyDefaults body) = Priority body /\
  Criticality (applyDefaults body) = Criticality body /\
  EstimatedLatency (applyDefaults body) = EstimatedLatency body.
Proof.
  unfold applyDefaults.
  repeat match goal with |- context [if ?b then _ else _] => destruct b end;
    done.
Qed.

Lemma prepareTask_fields body now :
  let d := applyDefaults body in
  let t := prepareTask body now in
  ID t = "task-" +:+ itoa now /\ SmartScore t = calculateScore d /\
  SubmittedAt t = now /\ Type_ t = Type_ d /\ Priority t = Priority d /\
  Criticality t = Criticality d /\ EstimatedLatency t = EstimatedLatency d /\
  NetworkLatency t = NetworkLatency d /\ CPUCost t = CPUCost d /\
  RAMCost t = RAMCost d /\ StorageCost t = StorageCost d /\
  EnergyCost t = EnergyCost d.
Proof. simpl. repeat split. Qed.


(** *** The outcomes of a submission *)

Lemma submit_rejected snap body now fc reason :
  gates snap (prepareTask body now) = Some reason ->
  submitWith snap (Some body) now fc =
    (rejectTask fc (with_Status "rejected" (prepareTask body now)) reason
       (currentLoad snap) (queueSize snap) now,
     ServiceUnavailable reason).
Proof. intros H. unfold submitWith. by rewrite H. Qed.

Lemma submit_admitted snap body now fc :
  gates snap (prepareTask body now) = None ->
  submitWith snap (Some body) now fc =
    (enqueue fc (with_Status "queued" (prepareTask body now)),
     OK (with_Status "queued" (prepareTask body now))).
Proof. intros H. unfold submitWith. by rewrite H. Qed.

Lemma submit_cases snap body now fc :
  (exists reason, gates snap (prepareTask body now) = Some reason /\
     submitWith snap (Some body) now fc =
       (rejectTask fc (with_Status "rejected" (prepareTask body now)) reason
          (currentLoad snap) (queueSize snap) now,
        ServiceUnavailable reason)) \/
  (gates snap (prepareTask body now) = None /\
     submitWith snap (Some body) now fc =
       (enqueue fc (with_Status "queued" (prepareTask body now)),
        OK (with_Status "queued" (prepareTask body now)))).
Proof.
  destruct (gates snap (prepareTask body now)) as [reason|] eqn:E.
  - left. exists reason. split; [done|]. by apply submit_rejected.
  - right. split; [done|]. by apply submit_admitted.
Qed.


(** *** The gates *)

(** C6. A submission whose snapshot shows a load above 0.80 or more
    than 50 queued tasks is rejected with the overload reason, which
    spells out the load and the queue length, whatever its costs: the
    resource and energy gates are not consulted.  The rejected task is
    appended to the rejection queue with that reason.  In particular a
    submission that finds 51 tasks in the queue is rejected so. *)
Theorem overload_gate_rejects snap body now fc :
  let task := with_Status "rejected" (prepareTask body now) in
  let reason (load : F) (qs : Z) :=
    "Nœud surchargé: charge=" +:+ fmt2f load +:+ ", taille_queue=" +:+ itoa qs in
  (((currentLoad snap >? lit 0.8)%fl = true \/ (50 < queueSize snap)%Z) ->
   submitWith snap (Some body) now fc =
     (rejectTask fc task (reason (currentLoad snap) (queueSize snap))
        (currentLoad snap) (queueSize snap) now,
      ServiceUnavailable (reason (currentLoad snap) (queueSize snap)))) /\
  (length (taskHeap fc) = 51 ->
   handleSubmitTask (Some body) now fc =
     (rejectTask fc task (reason (Load (node fc)) 51%Z) (Load (node fc)) 51%Z
        now,
      ServiceUnavailable (reason (Load (node fc)) 51%Z))).
Proof.
  intros task reason.
  assert (forall sn, ((currentLoad sn >? lit 0.8)%fl = true \/
                      (50 < queueSize sn)%Z) ->
            gates sn (prepareTask body now) =
              Some (reason (currentLoad sn) (queueSize sn))) as Hgate.
  { intros sn Hover. unfold gates, overloadGate, MaxLoadThreshold.
    destruct Hover as [->|Hq]; [done|].
    apply Z.ltb_lt in Hq. rewrite Hq. by rewrite orb_true_r. }
  split.
  - intros Hover. by apply submit_rejected, Hgate.
  - intros Hlen. unfold handleSubmitTask.
    assert ((50 < queueSize (snapshot fc))%Z) as Hq.
    { simpl. rewrite Hlen. done. }
    rewrite (submit_rejected _ _ _ _ _ (Hgate (snapshot fc) (or_intror Hq))).
    simpl. by rewrite Hlen.
Qed.

(** C7. A submission that passes the overload and resource gates is
    rejected exactly when its criticality is at least 4 and the energy
    level of the snapshot is below 0.30, with the low-energy reason;
    otherwise it is admitted: reserved, stored and queued. *)
Theorem energy_gate_exact snap body now fc :
  ((currentLoad snap >? lit 0.8)%fl = false /\ (queueSize snap <= 50)%Z) ->
  resourceGate (prepareTask body now) (snapCPU snap) (snapRAM snap)
    (snapStorage snap) = false ->
  let reason :=
    "Niveau d'énergie bas pour tâche critique: énergie=" +:+
    fmt2f (snapEnergy snap) in
  if decide ((4 <= Criticality body)%Z /\
             (snapEnergy snap <? lit 0.3)%fl = true)
  then
    submitWith snap (Some body) now fc =
      (rejectTask fc (with_Status "rejected" (prepareTask body now)) reason
         (currentLoad snap) (queueSize snap) now,
       ServiceUnavailable reason)
  else
    submitWith snap (Some body) now fc =
      (enqueue fc (with_Status "queued" (prepareTask body now)),
       OK (with_Status "queued" (prepareTask body now))).
Proof.
  intros [Hload Hq] Hres reason.
  assert (overloadGate snap = false) as Hover.
  { unfold overloadGate, MaxLoadThreshold. rewrite Hload. simpl.
    by apply Z.ltb_ge. }
  assert (Criticality (prepareTask body now) = Criticality body) as Hc.
  { simpl. apply applyDefaults_fixed. }
  case_decide as Hcond.
  - apply submit_rejected. unfold gates. rewrite Hover, Hres.
    unfold energyGate. rewrite Hc.
    destruct Hcond as [H4 ->]. apply Z.leb_le in H4. by rewrite H4.
  - apply submit_admitted. unfold gates. rewrite Hover, Hres.
    unfold energyGate. rewrite Hc.
    destruct (4 <=? Criticality body)%Z eqn:H4; [|done].
    destruct (snapEnergy snap <? lit 0.3)%fl eqn:He; [|done].
    exfalso. apply Hcond. split; [by apply Z.leb_le|done].
Qed.

(** *** Ids *)

Lemma to_int_proper z :
  Z.to_int z <> Decimal.Pos Decimal.Nil /\ Z.to_int z <> Decimal.Neg Decimal.Nil.
Proof.
  destruct z as [|p|p]; simpl; split; try discriminate;
    intros [= H]; by apply (DecimalPos.Unsigned.to_uint_nonnil p).
Qed.

Lemma itoa_inj z1 z2 : itoa z1 = itoa z2 -> z1 = z2.
Proof.
  unfold itoa. intros H.
  apply (f_equal NilZero.int_of_string) in H.
  destruct (to_int_proper z1) as [? ?], (to_int_proper z2) as [? ?].
  rewrite !NilZero.isi in H by done.
  injection H as H. apply (f_equal Z.of_int) in H.
  by rewrite !DecimalZ.of_to in H.
Qed.

Lemma task_id_inj z1 z2 : "task-" +:+ itoa z1 = "task-" +:+ itoa z2 -> z1 = z2.
Proof. intros H. apply itoa_inj. by simplify_eq/=. Qed.

(** *** The rejection queue *)

Lemma findRejected_None taskID (l : list (RejectedTask F)) :
  findRejected taskID l = None <->
  forall rt, rt ∈ l -> ID (rt_Task rt) <> taskID.
Proof.
  induction l as [|rt l IH]; simpl.
  - split; [|done]. intros _ rt Hrt. by apply elem_of_nil in Hrt.
  - destruct (String.eqb (ID (rt_Task rt)) taskID) eqn:E.
    + apply String.eqb_eq in E. split; [done|].
      intros H. exfalso. apply (H rt); [left|done].
    + apply String.eqb_neq in E.
      destruct (findRejected taskID l) as [[i t]|].
      * split; [done|]. intros H. exfalso.
        assert (Some (i, t) = None) as Hn; [|done].
        apply IH. intros rt' Hrt'. apply H. by right.
      * split; [|done]. intros _ rt' Hrt'.
        apply elem_of_cons in Hrt' as [->|Hrt']; [done|].
        by apply IH.
Qed.

Lemma findRejected_Some taskID (l : list (RejectedTask F)) i t :
  findRejected taskID l = Some (i, t) <->
  exists rt, l !! i = Some rt /\ rt_Task rt = t /\ ID t = taskID /\
    forall j rt', j < i -> l !! j = Some rt' -> ID (rt_Task rt') <> taskID.
Proof.
  revert i. induction l as [|rt l IH]; intros i; simpl.
  - split; [done|]. by intros (rt & Hrt & _).
  - destruct (String.eqb (ID (rt_Task rt)) taskID) eqn:E.
    + apply String.eqb_eq in E. split.
      * intros [= <- <-]. exists rt. repeat split; [done|]. intros; lia.
      * intros (rt' & Hi & <- & Hid & Hfirst).
        destruct i as [|i].
        -- by simplify_eq/=.
        -- exfalso. by apply (Hfirst 0 rt); [lia|..].
    + apply String.eqb_neq in E. split.
      * destruct (findRejected taskID l) as [[i' t']|] eqn:Hf; [|done].
        intros [= <- <-].
        destruct (proj1 (IH i') eq_refl) as (rt' & Hi & <- & Hid & Hfirst).
        exists rt'. repeat split; [done..|].
        intros [|j] rt'' Hj; simpl; [by intros [= <-]|].
        apply Hfirst. lia.
      * intros (rt' & Hi & <- & Hid & Hfirst).
        destruct i as [|i]; [by simplify_eq/=|].
        simpl in Hi.
        assert (findRejected taskID l = Some (i, rt_Task rt')) as ->; [|done].
        apply IH. exists rt'. repeat split; [done..|].
        intros j rt'' Hj Hl. apply (Hfirst (S j)); [lia|done].
Qed.

(** C5. Retry by id.  With no entry of that id in the rejection queue
    the answer is not-found and the node is unchanged.  Otherwise the
    first entry of that id is examined against the resource gate alone:
    if its cpu, ram or storage cost exceeds what is available now the
    answer is service-unavailable and the node, the entry included, is
    unchanged; if none does, whatever the load, the queue length, the
    energy level and the criticality, the entry leaves the rejection
    queue, the task is marked "queued", its four costs are deducted,
    and it is put into the task store and onto the priority queue. *)
Theorem retry_rechecks_resources_only taskID now fc :
  ((forall rt, rt ∈ rejectedTasks fc -> ID (rt_Task rt) <> taskID) ->
   handleRetryRejectedTask taskID now fc = (fc, NotFound)) /\
  (forall i rt,
     rejectedTasks fc !! i = Some rt ->
     ID (rt_Task rt) = taskID ->
     (forall j rt', j < i -> rejectedTasks fc !! j = Some rt' ->
                    ID (rt_Task rt') <> taskID) ->
     let t := rt_Task rt in
     (((CPUCost t >? availableCPU fc)%fl = true \/
       (RAMCost t >? availableRAM fc)%fl = true \/
       (StorageCost t >? availableStorage fc)%fl = true) ->
      handleRetryRejectedTask taskID now fc =
        (fc, ServiceUnavailable retryReason)) /\
     (((CPUCost t >? availableCPU fc)%fl = false /\
       (RAMCost t >? availableRAM fc)%fl = false /\
       (StorageCost t >? availableStorage fc)%fl = false) ->
      exists fc' task p,
        handleRetryRejectedTask taskID now fc = (fc', OKMessage task) /\
        p = length (heapObjs fc) /\
        Status task = "queued" /\ ID task = taskID /\
        Criticality task = Criticality t /\
        SmartScore task = calculateScore t /\
        CPUCost task = CPUCost t /\ RAMCost task = RAMCost t /\
        StorageCost task = StorageCost t /\ EnergyCost task = EnergyCost t /\
        rejectedTasks fc' = delete i (rejectedTasks fc) /\
        availableCPU fc' = (availableCPU fc - CPUCost t)%fl /\
        availableRAM fc' = (availableRAM fc - RAMCost t)%fl /\
        availableStorage fc' = (availableStorage fc - StorageCost t)%fl /\
        energyLevel fc' = (energyLevel fc - EnergyCost t)%fl /\
        tasks fc' = <[taskID := p]> (tasks fc) /\
        heapObjs fc' = heapObjs fc ++ [task] /\
        taskHeap fc' ≡ₚ p :: taskHeap fc /\
        node fc' = node fc /\ metrics fc' = metrics fc /\
        workerPool fc' = workerPool fc)).
Proof.
  split.
  - intros Hnone. apply findRejected_None in Hnone.
    unfold handleRetryRejectedTask. by rewrite Hnone.
  - intros i rt Hi Hid Hfirst t.
    assert (findRejected taskID (rejectedTasks fc) = Some (i, t)) as Hfind.
    { apply findRejected_Some. by exists rt. }
    unfold handleRetryRejectedTask. rewrite Hfind. split.
    + intros Hgate. unfold resourceGate.
      destruct Hgate as [->|[->| ->]]; simpl; by rewrite ?orb_true_r.
    + intros (Hc & Hr & Hs). unfold resourceGate. rewrite Hc, Hr, Hs. simpl.
      eexists _, _, _. split; [reflexivity|].
      subst t. simpl. rewrite Hid.
      repeat split; try done. apply heap_Push_perm.
Qed.

(** C10 (amended). A submission that a gate rejects leaves the task
    store, the task memory and the priority queue as they were: the
    rejected task is not inserted, and GET /tasks/{id} answers for every
    id as it did before.  So the rejected task's id is not-found unless
    an earlier admitted task was given the same id.  The rejected task
    is the new last entry of the rejection queue. *)
Theorem rejected_task_not_stored snap body now fc reason :
  gates snap (prepareTask body now) = Some reason ->
  let r := submitWith snap (Some body) now fc in
  let id := "task-" +:+ itoa now in
  snd r = ServiceUnavailable reason /\
  tasks (fst r) = tasks fc /\ heapObjs (fst r) = heapObjs fc /\
  taskHeap (fst r) = taskHeap fc /\
  (forall taskID, handleGetTask taskID (fst r) = handleGetTask taskID fc) /\
  (tasks fc !! id = None -> handleGetTask id (fst r) = NotFound) /\
  exists rt,
    rejectedTasks (fst r) = rejectedTasks fc ++ [rt] /\
    ID (rt_Task rt) = id /\ Status (rt_Task rt) = "rejected" /\
    RejectionReason rt = reason.
Proof.
  intros Hgate r id. subst r. rewrite (submit_rejected _ _ _ _ _ Hgate).
  simpl. repeat split; try done.
  - intros Hnone. unfold handleGetTask. simpl. by rewrite Hnone.
  - eexists. split; [reflexivity|]. done.
Qed.

(** C9 (amended). The id of an admitted task is "task-" followed by the
    decimal clock reading (Unix nanoseconds) of its submission, with
    nothing appended: two admitted tasks have different ids if and only
    if their submissions read different clock values. *)
Theorem task_ids_follow_clock snap1 snap2 body1 body2 now1 now2
    (fc1 fc2 : FogCompute F) task1 task2 :
  snd (submitWith snap1 (Some body1) now1 fc1) = OK task1 ->
  snd (submitWith snap2 (Some body2) now2 fc2) = OK task2 ->
  ID task1 = "task-" +:+ itoa now1 /\ ID task2 = "task-" +:+ itoa now2 /\
  (ID task1 <> ID task2 <-> now1 <> now2).
Proof.
  intros H1 H2.
  destruct (submit_cases snap1 body1 now1 fc1) as [(? & _ & E1)|[_ E1]];
    rewrite E1 in H1; [done|]. injection H1 as <-.
  destruct (submit_cases snap2 body2 now2 fc2) as [(? & _ & E2)|[_ E2]];
    rewrite E2 in H2; [done|]. injection H2 as <-.
  simpl. repeat split; [|by intros ? [= ?%itoa_inj]].
  intros Hne ->. by apply Hne.
Qed.

End Handlers.

(** ** Who holds a task

    A task that has been stored is held by the priority queue or by one
    worker until it completes: the queue and a worker that has just
    popped hold tasks marked "queued", a worker inside [processTask]
    holds a task marked "processing".  No task is held twice. *)

Section Ownership.
Context {F : Type} {FO : Float64 F}.
Implicit Types (fc : FogCompute F) (task : Task F) (objs : list (Task F)).

Lemma list_alter_insert {A} (f : A -> A) (l : list A) i x :
  l !! i = Some x -> alter f i l = <[i := f x]> l.
Proof.
  revert i. induction l as [|y l IH]; intros [|i] H; simplify_eq/=; [done|].
  f_equal. by apply IH.
Qed.

(** The claims of the pool around worker [w]. *)
Lemma pool_claims (pool : list Worker) w x :
  pool !! w = Some x ->
  omap worker_claim pool =
    omap worker_claim (take w pool) ++ option_list (worker_claim x) ++
    omap worker_claim (drop (S w) pool).
Proof.
  intros H. rewrite <- (take_drop_middle pool w x H) at 1.
  rewrite omap_app. simpl. by destruct (worker_claim x).
Qed.

Lemma pool_claims_insert (pool : list Worker) w x y :
  pool !! w = Some x ->
  omap worker_claim (<[w := y]> pool) =
    omap worker_claim (take w pool) ++ option_list (worker_claim y) ++
    omap worker_claim (drop (S w) pool).
Proof.
  intros H. rewrite insert_take_drop by (by eapply lookup_lt_Some).
  rewrite omap_app. simpl. by destruct (worker_claim y).
Qed.

Lemma claim_holds_lt objs c : claim_holds objs c -> c.1 < length objs.
Proof. intros (t & Ht & _). by eapply lookup_lt_Some. Qed.

Lemma wf_init nodeID location now : wf (NewFogCompute nodeID location now).
Proof. split; simpl; constructor. Qed.

Lemma wf_enqueue fc task :
  wf fc -> Status task = "queued" -> wf (enqueue fc task).
Proof.
  intros [Hnd Hcl] Hst.
  assert (owned (enqueue fc task) ≡ₚ
          queue_claim (length (heapObjs fc)) :: owned fc) as Hperm.
  { unfold owned. simpl. by rewrite heap_Push_perm. }
  unfold wf. rewrite Hperm. simpl. split.
  - apply NoDup_cons. split; [|done].
    intros Hin. apply list_elem_of_fmap in Hin as (c & Hc & Hin).
    rewrite Forall_forall in Hcl. apply Hcl, claim_holds_lt in Hin. lia.
  - constructor.
    + exists task. split; [|done]. simpl.
      rewrite lookup_app_r by done. by rewrite Nat.sub_diag.
    + eapply Forall_impl; [done|]. intros c (t & Ht & Hs).
      exists t. split; [|done]. by apply lookup_app_l_Some.
Qed.

Lemma Permutation_move {A} (l1 l2 l3 : list A) x :
  l1 ++ l2 ++ x :: l3 ≡ₚ x :: l1 ++ l2 ++ l3.
Proof. rewrite !app_assoc. by rewrite <- Permutation_middle. Qed.

Lemma wf_workerPop w fc : wf fc -> wf (workerPop w fc).
Proof.
  intros [Hnd Hcl]. unfold workerPop.
  destruct (workerPool fc !! w) as [[|?|? ?]|] eqn:Hw; try done.
  destruct (heap_Pop _ _) as [[p h]|] eqn:Hpop; [|done].
  apply heap_Pop_perm in Hpop.
  assert (owned fc ≡ₚ queue_claim p :: (queue_claim <$> h) ++
            omap worker_claim (take w (workerPool fc)) ++
            omap worker_claim (drop (S w) (workerPool fc))) as H1.
  { unfold owned. rewrite (pool_claims _ _ _ Hw), Hpop. done. }
  split; simpl.
  - unfold owned; simpl. rewrite (pool_claims_insert _ _ _ _ Hw). simpl.
    rewrite H1 in Hnd. simpl in Hnd.
    rewrite !fmap_app in *. simpl.
    eapply NoDup_Permutation_proper; [|exact Hnd].
    apply Permutation_move.
  - unfold owned; simpl. rewrite (pool_claims_insert _ _ _ _ Hw). simpl.
    rewrite H1 in Hcl.
    eapply Permutation_Forall; [|exact Hcl].
    symmetry. apply Permutation_move.
Qed.

(** A claim on another task survives a change of task [p]. *)
Lemma claim_holds_insert_ne objs p task c :
  c.1 <> p -> claim_holds objs c -> claim_holds (<[p := task]> objs) c.
Proof.
  intros Hne (t & Ht & Hs). exists t. split; [|done].
  by rewrite list_lookup_insert_ne.
Qed.

Lemma NoDup_fst_middle (l1 l2 : list (nat * string)) c :
  NoDup (l1 ++ c :: l2).*1 ->
  NoDup (l1 ++ l2).*1 /\ forall c', c' ∈ l1 ++ l2 -> c'.1 <> c.1.
Proof.
  rewrite !fmap_app. simpl. intros H.
  rewrite <- Permutation_middle in H. apply NoDup_cons in H as [Hnin Hnd].
  split; [done|]. intros c' Hin Heq. apply Hnin. rewrite <- Heq.
  rewrite <- fmap_app. by apply list_elem_of_fmap_2.
Qed.

Lemma wf_processBegin w now fc : wf fc -> wf (processBegin w now fc).
Proof.
  intros [Hnd Hcl]. unfold processBegin.
  destruct (workerPool fc !! w) as [[|p|? ?]|] eqn:Hw; try done.
  unfold wf, owned in *. simpl.
  rewrite (pool_claims _ _ _ Hw) in Hnd, Hcl.
  rewrite (pool_claims_insert _ _ _ _ Hw). simpl in *.
  rewrite app_assoc in Hnd, Hcl. rewrite app_assoc.
  split.
  - rewrite !fmap_app, !fmap_cons in *. done.
  - apply NoDup_fst_middle in Hnd as [_ Hother].
    apply Forall_app in Hcl as [Hl Hr].
    apply Forall_cons in Hr as [(t & Ht & Hs) Hr]. simpl in Ht.
    rewrite (list_alter_insert _ _ _ _ Ht).
    apply Forall_app. split; [|constructor].
    + apply Forall_forall. intros c Hc.
      apply claim_holds_insert_ne.
      * apply (Hother c). apply elem_of_app. by left.
      * rewrite Forall_forall in Hl. by apply Hl.
    + exists (with_Status "processing" t). split; [|done]. simpl.
      apply list_lookup_insert_eq. by eapply lookup_lt_Some.
    + apply Forall_forall. intros c Hc.
      apply claim_holds_insert_ne.
      * apply (Hother c). apply elem_of_app. by right.
      * rewrite Forall_forall in Hr. by apply Hr.
Qed.

Lemma wf_processEnd w now fc : wf fc -> wf (processEnd w now fc).
Proof.
  intros [Hnd Hcl]. unfold processEnd.
  destruct (workerPool fc !! w) as [[|?|p start]|] eqn:Hw; try done.
  destruct (heapObjs fc !! p) as [task|] eqn:Hp; [|done].
  unfold wf, owned in *. simpl.
  rewrite (pool_claims _ _ _ Hw) in Hnd, Hcl.
  rewrite (pool_claims_insert _ _ _ _ Hw). simpl in *.
  rewrite app_assoc in Hnd, Hcl. rewrite app_assoc.
  apply NoDup_fst_middle in Hnd as [Hnd Hother].
  split; [done|].
  apply Forall_app in Hcl as [Hl Hr].
  apply Forall_cons in Hr as [_ Hr].
  apply Forall_forall. intros c Hc.
  apply claim_holds_insert_ne; [by apply (Hother c)|].
  apply elem_of_app in Hc as [Hc|Hc].
  - rewrite Forall_forall in Hl. by apply Hl.
  - rewrite Forall_forall in Hr. by apply Hr.
Qed.

Lemma wf_submitWith snap body now fc :
  wf fc -> wf (fst (submitWith snap body now fc)).
Proof.
  intros Hwf. destruct body as [body|]; [|done].
  destruct (submit_cases snap body now fc) as [(reason & _ & ->)|[_ ->]].
  - done.
  - simpl. by apply wf_enqueue.
Qed.

Lemma wf_retry taskID now fc :
  wf fc -> wf (fst (handleRetryRejectedTask taskID now fc)).
Proof.
  intros Hwf. unfold handleRetryRejectedTask.
  destruct (findRejected _ _) as [[i t]|]; [|done].
  destruct (resourceGate _ _ _ _); [done|].
  simpl. by apply (wf_enqueue (removeRejected i fc)).
Qed.

Lemma wf_step fc (e : Event F) : wf fc -> wf (step fc e).
Proof.
  intros Hwf. destruct e; simpl.
  - by apply wf_submitWith.
  - by apply wf_submitWith.
  - by apply wf_retry.
  - done.
  - by apply wf_workerPop.
  - by apply wf_processBegin.
  - by apply wf_processEnd.
  - done.
Qed.

Lemma run_snoc fc (evs : list (Event F)) e :
  run fc (evs ++ [e]) = step (run fc evs) e.
Proof. unfold run. by rewrite foldl_app. Qed.

Lemma wf_run fc (evs : list (Event F)) : wf fc -> wf (run fc evs).
Proof.
  intros Hwf. induction evs as [|e evs IH] using rev_ind; [done|].
  rewrite run_snoc. by apply wf_step.
Qed.

(** What a worker holds is there, with the status the worker left it
    in. *)
Lemma wf_worker_claim (fc : FogCompute F) w x c :
  wf fc -> workerPool fc !! w = Some x -> worker_claim x = Some c ->
  claim_holds (heapObjs fc) c.
Proof.
  intros [_ Hcl] Hw Hc. rewrite Forall_forall in Hcl. apply Hcl.
  unfold owned. apply elem_of_app. right.
  apply list_elem_of_omap. exists x. split; [|done].
  by eapply list_elem_of_lookup_2.
Qed.

(** *** The task store holds no dangling pointer *)

Lemma store_valid_enqueue fc task :
  store_valid fc -> store_valid (enqueue fc task).
Proof.
  intros Hv taskID p. simpl. rewrite length_app. simpl.
  destruct (decide (ID task = taskID)) as [->|Hne].
  - rewrite lookup_insert_eq. intros [= <-]. lia.
  - rewrite lookup_insert_ne by done. intros Hp. apply Hv in Hp. lia.
Qed.

Lemma store_valid_step fc (e : Event F) :
  store_valid fc -> store_valid (step fc e).
Proof.
  intros Hv.
  destruct e as [body now|snap body now|taskID now| |w|w now|w now|now];
    simpl.
  - destruct body as [body|]; [|done]. unfold handleSubmitTask.
    destruct (submit_cases (snapshot fc) body now fc)
      as [(reason & _ & ->)|[_ ->]]; [done|].
    by apply store_valid_enqueue.
  - destruct body as [body|]; [|done].
    destruct (submit_cases snap body now fc)
      as [(reason & _ & ->)|[_ ->]]; [done|].
    by apply store_valid_enqueue.
  - unfold handleRetryRejectedTask.
    destruct (findRejected _ _) as [[i t]|]; [|done].
    destruct (resourceGate _ _ _ _); [done|].
    by apply (store_valid_enqueue (removeRejected i fc)).
  - done.
  - unfold workerPop.
    destruct (workerPool fc !! w) as [[|?|? ?]|]; try done.
    by destruct (heap_Pop _ _) as [[p h]|].
  - unfold processBegin.
    destruct (workerPool fc !! w) as [[|p|? ?]|]; try done.
    intros taskID q. simpl. rewrite length_alter. apply Hv.
  - unfold processEnd.
    destruct (workerPool fc !! w) as [[|?|p start]|]; try done.
    destruct (heapObjs fc !! p) as [t|]; [|done].
    intros taskID q. simpl. rewrite length_insert. apply Hv.
  - done.
Qed.

Lemma store_valid_run nodeID location now (evs : list (Event F)) :
  store_valid (run (NewFogCompute nodeID location now) evs).
Proof.
  induction evs as [|e evs IH] using rev_ind; [by intros ? ?|].
  rewrite run_snoc. by apply store_valid_step.
Qed.

(** So on a node that a run has reached GET /tasks/{id} answers
    not-found only for an id the task store does not list. *)
Lemma handleGetTask_NotFound nodeID location now (evs : list (Event F)) taskID :
  let fc := run (NewFogCompute nodeID location now) evs in
  handleGetTask taskID fc = NotFound <-> tasks fc !! taskID = None.
Proof.
  intros fc. unfold handleGetTask.
  destruct (tasks fc !! taskID) as [p|] eqn:Hp; [|done].
  apply (store_valid_run nodeID location now evs) in Hp.
  destruct (lookup_lt_is_Some_2 (heapObjs fc) p Hp) as [t Ht].
  fold fc. rewrite Ht. done.
Qed.

End Ownership.

(** ** The resource ledger, in exact arithmetic *)

Section ExactLedger.
Local Open Scope Q_scope.
Implicit Types (fc : FogCompute Q) (task : Task Q) (objs : list (Task Q)).
















(** *** Bounds *)











Lemma nonnegQ_prepare body now st :
  nonnegQ (applyDefaults body) ->
  nonnegQ (with_Status st (prepareTask body now)).
Proof. done. Qed.




End ExactLedger.

(** ** Scheduling order *)

#[export] Instance exact_order : Float64Order Q.
Proof.
  split; cbn [flt feq exact].
  - intros x y. rewrite negb_true_iff, negb_false_iff.
    rewrite <- not_true_iff_false, !Qle_bool_iff. lra.
  - intros x y z _. rewrite !negb_false_iff, !Qle_bool_iff. lra.
Qed.

(** *** binary64 comparison

    The comparison of IEEE 754 values other than NaN is the
    lexicographic order of sign class, exponent and mantissa. *)

Section Binary64Order.
Local Open Scope Z_scope.

Lemma SFcompare_rank f1 f2 :
  SFcompare f1 f2 =
    match sf_rank f1, sf_rank f2 with
    | Some a, Some b => Some (lex3 a b)
    | _, _ => None
    end.
Proof.
  destruct f1 as [s1|s1| |s1 m1 e1], f2 as [s2|s2| |s2 m2 e2]; simpl;
    try reflexivity; try (destruct s1; reflexivity);
    try (destruct s2; reflexivity); try (destruct s1, s2; reflexivity).
  destruct s1, s2; simpl; try reflexivity.
  rewrite Z.compare_opp, (Z.compare_antisym e1 e2).
  destruct (e1 ?= e2); reflexivity.
Qed.

Lemma lex3_Lt a b :
  lex3 a b = Lt <->
  let '(a1, a2, a3) := a in
  let '(b1, b2, b3) := b in
  a1 < b1 \/ (a1 = b1 /\ (a2 < b2 \/ (a2 = b2 /\ a3 < b3))).
Proof.
  destruct a as [[a1 a2] a3], b as [[b1 b2] b3]. unfold lex3.
  destruct (Z.compare_spec a1 b1), (Z.compare_spec a2 b2),
    (Z.compare_spec a3 b3); split; intros Hx; try discriminate; try lia;
    reflexivity.
Qed.

Lemma SFltb_rank f1 f2 :
  SFltb f1 f2 = true <->
  exists a b, sf_rank f1 = Some a /\ sf_rank f2 = Some b /\ lex3 a b = Lt.
Proof.
  unfold SFltb. rewrite SFcompare_rank.
  destruct (sf_rank f1) as [a|], (sf_rank f2) as [b|]; split;
    try discriminate; try (intros (? & ? & ? & ? & ?); discriminate).
  - destruct (lex3 a b) eqn:E; try discriminate. intros _. eauto.
  - intros (a' & b' & [= <-] & [= <-] & ->). reflexivity.
Qed.

Lemma ltb_asym (x y : float) :
  PrimFloat.ltb x y = true -> PrimFloat.ltb y x = false.
Proof.
  rewrite !FloatAxioms.ltb_spec. intros H.
  destruct (SFltb (Prim2SF y) (Prim2SF x)) eqn:E; [|reflexivity].
  apply SFltb_rank in H as (a & b & Ha & Hb & Hab).
  apply SFltb_rank in E as (b' & a' & Hb' & Ha' & Hba).
  rewrite Ha in Ha'. rewrite Hb in Hb'.
  injection Ha' as <-. injection Hb' as <-.
  apply lex3_Lt in Hab, Hba. destruct a as [[? ?] ?], b as [[? ?] ?]. lia.
Qed.

Lemma ltb_ntrans (x y z : float) :
  PrimFloat.eqb y y = true ->
  PrimFloat.ltb y x = false -> PrimFloat.ltb z y = false ->
  PrimFloat.ltb z x = false.
Proof.
  rewrite FloatAxioms.eqb_spec, !FloatAxioms.ltb_spec. intros Hy Hyx Hzy.
  destruct (SFltb (Prim2SF z) (Prim2SF x)) eqn:E; [|reflexivity].
  apply SFltb_rank in E as (c & a & Hc & Ha & Hca).
  assert (exists b, sf_rank (Prim2SF y) = Some b) as [b Hb].
  { unfold SFeqb in Hy. rewrite SFcompare_rank in Hy.
    destruct (sf_rank (Prim2SF y)); [eauto|discriminate]. }
  assert (lex3 b a <> Lt) as Hba.
  { intros H.
    assert (SFltb (Prim2SF y) (Prim2SF x) = true) as H'; [|congruence].
    apply SFltb_rank. eauto. }
  assert (lex3 c b <> Lt) as Hcb.
  { intros H.
    assert (SFltb (Prim2SF z) (Prim2SF y) = true) as H'; [|congruence].
    apply SFltb_rank. eauto. }
  rewrite lex3_Lt in Hca, Hba, Hcb.
  destruct a as [[? ?] ?], b as [[? ?] ?], c as [[? ?] ?]. lia.
Qed.

End Binary64Order.

#[export] Instance binary64_order : Float64Order float.
Proof. split; [exact ltb_asym|exact ltb_ntrans]. Qed.

Section Scheduling.
Context {F : Type} {FO : Float64 F}.
Implicit Types (fc : FogCompute F) (task : Task F) (objs : list (Task F)).

Lemma heap_ok_ext {A} (Less Less' : A -> A -> bool) (h : list A) :
  (forall x y, x ∈ h -> y ∈ h -> Less x y = Less' x y) ->
  heap_ok Less h -> heap_ok Less' h.
Proof.
  intros Hext Hok k x y Hk Hx Hy. rewrite <- Hext.
  - by eapply (Hok k).
  - by eapply list_elem_of_lookup_2.
  - by eapply list_elem_of_lookup_2.
Qed.

Lemma TaskHeap_Less_ext objs objs' a b :
  score_at objs' a = score_at objs a -> score_at objs' b = score_at objs b ->
  TaskHeap_Less objs' a b = TaskHeap_Less objs a b.
Proof. unfold TaskHeap_Less. by intros -> ->. Qed.

(** A step that keeps the score of every stored task keeps the order
    of the queue. *)
Lemma sched_keep objs objs' (h : list nat) :
  (forall p task, objs !! p = Some task ->
     exists task', objs' !! p = Some task' /\ SmartScore task' = SmartScore task) ->
  heap_ok (TaskHeap_Less objs) h -> Forall (scored objs) h ->
  heap_ok (TaskHeap_Less objs') h /\ Forall (scored objs') h.
Proof.
  intros Hkeep Hok Hsc.
  assert (forall p, p ∈ h -> score_at objs' p = score_at objs p) as Hsame.
  { intros p Hp. rewrite Forall_forall in Hsc.
    destruct (Hsc p Hp) as (t & Ht & _).
    destruct (Hkeep p t Ht) as (t' & Ht' & E).
    unfold score_at. rewrite Ht, Ht'. simpl. by rewrite E. }
  split.
  - eapply heap_ok_ext; [|exact Hok].
    intros x y Hx Hy. symmetry. by apply TaskHeap_Less_ext; apply Hsame.
  - eapply Forall_impl; [exact Hsc|]. intros p (t & Ht & Hn).
    destruct (Hkeep p t Ht) as (t' & Ht' & E).
    exists t'. split; [done|]. by rewrite E.
Qed.

Context {FOrd : Float64Order F}.

Lemma TaskHeap_Less_asym objs a b :
  TaskHeap_Less objs a b = true -> TaskHeap_Less objs b a = false.
Proof.
  unfold TaskHeap_Less.
  destruct (score_at objs a), (score_at objs b); try done.
  apply flt_asym.
Qed.

Lemma TaskHeap_Less_ntrans objs a b c :
  scored objs b ->
  TaskHeap_Less objs b a = false -> TaskHeap_Less objs c b = false ->
  TaskHeap_Less objs c a = false.
Proof.
  intros (t & Ht & Hn). unfold TaskHeap_Less, score_at. rewrite Ht. simpl.
  destruct (objs !! a) as [ta|], (objs !! c) as [tc|]; simpl; try done.
  by apply flt_ntrans.
Qed.

Lemma sched_init nodeID location now :
  sched_ok (NewFogCompute nodeID location now).
Proof.
  split; [apply heap_ok_nil|]. split; constructor.
Qed.

Lemma sched_enqueue fc task :
  is_number (SmartScore task) ->
  heap_ok (TaskHeap_Less (heapObjs fc)) (taskHeap fc) ->
  Forall (scored (heapObjs fc)) (taskHeap fc) ->
  heap_ok (TaskHeap_Less (heapObjs (enqueue fc task))) (taskHeap (enqueue fc task)) /\
  Forall (scored (heapObjs (enqueue fc task))) (taskHeap (enqueue fc task)).
Proof.
  intros Hn Hok Hsc. simpl.
  set (objs' := heapObjs fc ++ [task]).
  destruct (sched_keep (heapObjs fc) objs' (taskHeap fc)) as [Hok' Hsc'];
    [|done|done|].
  { intros p t Ht. exists t. split; [|done]. by apply lookup_app_l_Some. }
  assert (scored objs' (length (heapObjs fc))) as Hnew.
  { exists task. split; [|done]. subst objs'.
    rewrite lookup_app_r by done. by rewrite Nat.sub_diag. }
  split.
  - exact (heap_Push_ok _ (scored objs') (TaskHeap_Less_asym objs')
             (TaskHeap_Less_ntrans objs') _ _ Hok' Hsc' Hnew).
  - eapply Permutation_Forall; [symmetry; apply heap_Push_perm|].
    by constructor.
Qed.

Lemma sched_step fc (e : Event F) :
  numbered e -> sched_ok fc -> sched_ok (step fc e).
Proof.
  intros Hnum (Hok & Hsc & Hrej).
  destruct e as [body now|snap body now|taskID now| |w|w now|w now|now];
    simpl in *.
  - destruct body as [body|]; [|done]. unfold handleSubmitTask.
    destruct (submit_cases (snapshot fc) body now fc)
      as [(reason & _ & ->)|[_ ->]]; simpl.
    + repeat split; try done. apply Forall_app. split; [done|].
      by constructor.
    + destruct (sched_enqueue fc (with_Status "queued" (prepareTask body now)))
        as [? ?]; done.
  - destruct body as [body|]; [|done].
    destruct (submit_cases snap body now fc)
      as [(reason & _ & ->)|[_ ->]]; simpl.
    + repeat split; try done. apply Forall_app. split; [done|].
      by constructor.
    + destruct (sched_enqueue fc (with_Status "queued" (prepareTask body now)))
        as [? ?]; done.
  - unfold handleRetryRejectedTask.
    destruct (findRejected _ _) as [[i t]|] eqn:Hfind; [|done].
    destruct (resourceGate _ _ _ _); [done|].
    apply findRejected_Some in Hfind as (rt & Hi & <- & _).
    assert (is_number (calculateScore (rt_Task rt))) as Hn.
    { rewrite Forall_forall in Hrej. apply Hrej.
      by eapply list_elem_of_lookup_2. }
    set (t' := with_SmartScore _ _).
    destruct (sched_enqueue (removeRejected i fc) t') as [? ?]; try done.
    split; [done|]. split; [done|]. simpl. by apply Forall_delete.
  - repeat split; try done.
  - unfold workerPop.
    destruct (workerPool fc !! w) as [[|?|? ?]|]; try done.
    destruct (heap_Pop _ _) as [[p h]|] eqn:Hpop; [|done].
    simpl. split; [|split; [|done]].
    + exact (proj1 (heap_Pop_ok _ (scored (heapObjs fc))
                      (TaskHeap_Less_asym _) (TaskHeap_Less_ntrans _)
                      _ _ _ Hok Hsc Hpop)).
    + apply heap_Pop_perm in Hpop.
      eapply Permutation_Forall in Hsc; [|exact Hpop].
      by apply Forall_cons in Hsc as [_ ?].
  - unfold processBegin.
    destruct (workerPool fc !! w) as [[|p|? ?]|]; try done.
    simpl.
    destruct (sched_keep (heapObjs fc)
                (alter (with_Status "processing") p (heapObjs fc))
                (taskHeap fc)) as [? ?]; try done.
    intros q t Ht. rewrite list_lookup_alter. case_decide as E.
    + subst q. rewrite Ht. by eexists.
    + by eexists.
  - unfold processEnd.
    destruct (workerPool fc !! w) as [[|?|p start]|]; try done.
    destruct (heapObjs fc !! p) as [t|] eqn:Hp; [|done].
    simpl.
    destruct (sched_keep (heapObjs fc)
                (<[p := with_completion (runHandler (Type_ t)) now t]>
                   (heapObjs fc))
                (taskHeap fc)) as [? ?]; try done.
    intros q t' Ht'. destruct (decide (q = p)) as [->|E].
    + rewrite list_lookup_insert_eq by (by eapply lookup_lt_Some).
      eexists. split; [done|]. simpl. congruence.
    + rewrite list_lookup_insert_ne by done. by eexists.
  - repeat split; try done.
Qed.

Lemma sched_run fc (evs : list (Event F)) :
  Forall numbered evs -> sched_ok fc -> sched_ok (run fc evs).
Proof.
  intros Hnum Hs. induction evs as [|e evs IH] using rev_ind; [done|].
  apply Forall_app in Hnum as [Hevs He].
  apply Forall_cons in He as [He _].
  rewrite run_snoc. apply sched_step; [done|]. by apply IH.
Qed.

(** C4 (amended). As long as every score assigned so far is a number
    (not NaN), a worker that pops from a non-empty queue takes a task no
    queued task has a smaller smart score than, and the queue loses that
    task and no other; so of two queued tasks A and B with score(A) <
    score(B), B is not popped while A is in the queue.  Which of
    several tasks of least score is taken is not determined here. *)
Theorem pop_takes_least nodeID location t0 (evs : list (Event F)) w :
  Forall numbered evs ->
  let fc := run (NewFogCompute nodeID location t0) evs in
  workerPool fc !! w = Some Idle -> taskHeap fc <> [] ->
  exists p tp,
    workerPool (workerPop w fc) !! w = Some (Popped p) /\
    taskHeap fc ≡ₚ p :: taskHeap (workerPop w fc) /\
    heapObjs fc !! p = Some tp /\
    (forall q tq, q ∈ taskHeap fc -> heapObjs fc !! q = Some tq ->
       (SmartScore tq <? SmartScore tp)%fl = false) /\
    (forall a b ta tb, a ∈ taskHeap fc -> b ∈ taskHeap fc ->
       heapObjs fc !! a = Some ta -> heapObjs fc !! b = Some tb ->
       (SmartScore ta <? SmartScore tb)%fl = true -> p <> b).
Proof.
  intros Hnum fc Hidle Hne.
  destruct (sched_run _ evs Hnum (sched_init nodeID location t0))
    as (Hok & Hsc & _). fold fc in Hok, Hsc.
  destruct (heap_Pop_nonempty (TaskHeap_Less (heapObjs fc)) _ Hne)
    as (p & h & Hpop).
  pose proof (heap_Pop_perm _ _ _ _ Hpop) as Hperm.
  destruct (heap_Pop_ok _ (scored (heapObjs fc))
              (TaskHeap_Less_asym _) (TaskHeap_Less_ntrans _)
              _ _ _ Hok Hsc Hpop) as [_ Hmin].
  assert (p ∈ taskHeap fc) as Hp by (rewrite Hperm; left).
  rewrite Forall_forall in Hsc. destruct (Hsc p Hp) as (tp & Htp & _).
  assert (forall q tq, q ∈ taskHeap fc -> heapObjs fc !! q = Some tq ->
            (SmartScore tq <? SmartScore tp)%fl = false) as Hleast.
  { intros q tq Hq Htq. specialize (Hmin q Hq).
    unfold TaskHeap_Less, score_at in Hmin. by rewrite Htq, Htp in Hmin. }
  exists p, tp. unfold workerPop. rewrite Hidle, Hpop. simpl.
  repeat split; try done.
  - apply list_lookup_insert_eq. by eapply lookup_lt_Some.
  - intros a b ta tb Ha Hb Hta Htb Hlt ->.
    rewrite Htp in Htb. injection Htb as ->.
    by rewrite (Hleast a ta Ha Hta) in Hlt.
Qed.

End Scheduling.

(** ** Steps, case by case *)

Section Steps.
Context {F : Type} {FO : Float64 F}.
Implicit Types (fc : FogCompute F) (task t : Task F) (objs : list (Task F)).

(** Every step is one of eight changes of the node. *)
Lemma step_cases (I : FogCompute F -> FogCompute F -> Prop) :
  (forall fc, I fc fc) ->
  (forall fc body now reason load qs,
     I fc (rejectTask fc (with_Status "rejected" (prepareTask body now))
             reason load qs now)) ->
  (forall fc body now,
     I fc (enqueue fc (with_Status "queued" (prepareTask body now)))) ->
  (forall fc i rt now,
     rejectedTasks fc !! i = Some rt ->
     let t := with_SubmittedAt now (with_Status "queued" (rt_Task rt)) in
     I fc (enqueue (removeRejected i fc) (with_SmartScore (calculateScore t) t))) ->
  (forall fc, I fc (fst (handleClearRejectedTasks fc))) ->
  (forall fc w p h,
     workerPool fc !! w = Some Idle ->
     heap_Pop (TaskHeap_Less (heapObjs fc)) (taskHeap fc) = Some (p, h) ->
     I fc (workerPop w fc)) ->
  (forall fc w p now,
     workerPool fc !! w = Some (Popped p) -> I fc (processBegin w now fc)) ->
  (forall fc w p startTime t now,
     workerPool fc !! w = Some (Running p startTime) ->
     heapObjs fc !! p = Some t -> I fc (processEnd w now fc)) ->
  (forall fc now, I fc (updateMetrics now fc)) ->
  forall fc (e : Event F), I fc (step fc e).
Proof.
  intros Hid Hrej Hsub Hretry Hclear Hpop Hbegin Hend Htick fc e.
  assert (forall snap body now, I fc (fst (submitWith snap body now fc))) as Hs.
  { intros snap [body|] now; [|apply Hid].
    destruct (submit_cases snap body now fc) as [(reason & _ & ->)|[_ ->]];
      [apply Hrej|apply Hsub]. }
  destruct e as [body now|snap body now|taskID now| |w|w now|w now|now]; simpl.
  - apply Hs.
  - apply Hs.
  - unfold handleRetryRejectedTask.
    destruct (findRejected _ _) as [[i t]|] eqn:Hfind; [|apply Hid].
    destruct (resourceGate _ _ _ _); [apply Hid|].
    apply findRejected_Some in Hfind as (rt & Hi & <- & _).
    by apply Hretry.
  - apply Hclear.
  - destruct (workerPool fc !! w) as [[|?|? ?]|] eqn:Hw;
      try (unfold workerPop; rewrite Hw; apply Hid).
    destruct (heap_Pop (TaskHeap_Less (heapObjs fc)) (taskHeap fc))
      as [[p h]|] eqn:Hp.
    + by eapply Hpop.
    + unfold workerPop. rewrite Hw, Hp. apply Hid.
  - destruct (workerPool fc !! w) as [[|p|? ?]|] eqn:Hw;
      try (unfold processBegin; rewrite Hw; apply Hid).
    by eapply Hbegin.
  - destruct (workerPool fc !! w) as [[|?|p s]|] eqn:Hw;
      try (unfold processEnd; rewrite Hw; apply Hid).
    destruct (heapObjs fc !! p) as [t|] eqn:Hp.
    + by eapply Hend.
    + unfold processEnd. rewrite Hw, Hp. apply Hid.
  - apply Htick.
Qed.

Lemma run_invariant (Inv : FogCompute F -> Prop) fc (evs : list (Event F)) :
  (forall fc e, Inv fc -> Inv (step fc e)) -> Inv fc -> Inv (run fc evs).
Proof.
  intros Hstep H0. induction evs as [|e evs IH] using rev_ind; [done|].
  rewrite run_snoc. by apply Hstep.
Qed.

End Steps.

(** ** The life of a stored task *)

Section Lifecycle.
Context {F : Type} {FO : Float64 F}.
Implicit Types (fc : FogCompute F) (task t : Task F) (objs : list (Task F)).

Lemma same_request_refl t : same_request t t.
Proof. by repeat split. Qed.

Lemma same_request_trans t1 t2 t3 :
  same_request t1 t2 -> same_request t2 t3 -> same_request t1 t3.
Proof.
  intros (? & ? & ? & ? & ? & ? & ? & ? & ? & ? & ? & ?)
         (? & ? & ? & ? & ? & ? & ? & ? & ? & ? & ? & ?).
  repeat split; congruence.
Qed.

Lemma forward_refl s : forward s s.
Proof. by left. Qed.

Lemma forward_trans s1 s2 s3 : forward s1 s2 -> forward s2 s3 -> forward s1 s3.
Proof.
  intros [->|[[-> H1]|[-> ->]]] [->|[[E H2]|[E ->]]]; unfold forward; auto;
    try discriminate; destruct H1 as [->| ->]; try discriminate; auto.
Qed.

Lemma lifecycle_step fc (e : Event F) :
  wf fc -> forall p t, heapObjs fc !! p = Some t ->
  exists t', heapObjs (step fc e) !! p = Some t' /\ same_request t t' /\
             forward (Status t) (Status t').
Proof.
  revert fc e.
  apply (step_cases (fun fc fc' => wf fc -> forall p t,
    heapObjs fc !! p = Some t ->
    exists t', heapObjs fc' !! p = Some t' /\ same_request t t' /\
               forward (Status t) (Status t'))).
  - intros fc _ p t Hp. exists t. by split; [|split; [apply same_request_refl|left]].
  - intros fc body now reason load qs _ p t Hp. exists t.
    by split; [|split; [apply same_request_refl|left]].
  - intros fc body now _ p t Hp. exists t.
    split; [by apply lookup_app_l_Some|].
    by split; [apply same_request_refl|left].
  - intros fc i rt now _ t0 _ p t Hp. exists t.
    split; [by apply lookup_app_l_Some|].
    by split; [apply same_request_refl|left].
  - intros fc _ p t Hp. exists t. by split; [|split; [apply same_request_refl|left]].
  - intros fc w p0 h Hw Hpop _ p t Hp. unfold workerPop. rewrite Hw, Hpop.
    exists t. by split; [|split; [apply same_request_refl|left]].
  - intros fc w p0 now Hw Hwf p t Hp. unfold processBegin. rewrite Hw. simpl.
    destruct (wf_worker_claim fc w _ _ Hwf Hw eq_refl) as (t0 & Ht0 & Hs0).
    simpl in Ht0, Hs0. rewrite (list_alter_insert _ _ _ _ Ht0).
    destruct (decide (p = p0)) as [->|Hne].
    + rewrite Hp in Ht0. injection Ht0 as <-.
      exists (with_Status "processing" t).
      split; [apply list_lookup_insert_eq; by eapply lookup_lt_Some|].
      split; [by repeat split|]. right. left. rewrite Hs0. auto.
    + exists t. rewrite list_lookup_insert_ne by done.
      by split; [|split; [apply same_request_refl|left]].
  - intros fc w p0 startTime t0 now Hw Ht0 Hwf p t Hp.
    unfold processEnd. rewrite Hw, Ht0. simpl.
    destruct (wf_worker_claim fc w _ _ Hwf Hw eq_refl) as (t1 & Ht1 & Hs1).
    simpl in Ht1, Hs1. rewrite Ht0 in Ht1. injection Ht1 as <-.
    destruct (decide (p = p0)) as [->|Hne].
    + rewrite Hp in Ht0. injection Ht0 as <-.
      eexists.
      split; [apply list_lookup_insert_eq; by eapply lookup_lt_Some|].
      split; [by repeat split|]. right. right. rewrite Hs1. auto.
    + exists t. rewrite list_lookup_insert_ne by done.
      by split; [|split; [apply same_request_refl|left]].
  - intros fc now _ p t Hp. exists t.
    by split; [|split; [apply same_request_refl|left]].
Qed.

(** X1. Once a task is stored its id, type, priority, criticality,
    score, costs, latencies and submission time never change, and its
    status only moves forward from "queued" to "processing" to
    "completed": whatever happens later on the node, the task is still
    at its address, the same request, at the same or a later status. *)
Theorem stored_task_moves_forward nodeID location (t0 : Z)
    (evs evs' : list (Event F)) p t :
  heapObjs (run (NewFogCompute nodeID location t0) evs) !! p = Some t ->
  exists t',
    heapObjs (run (NewFogCompute nodeID location t0) (evs ++ evs')) !! p
      = Some t' /\
    same_request t t' /\ forward (Status t) (Status t').
Proof.
  intros Hp. induction evs' as [|e evs' IH] using rev_ind.
  - rewrite app_nil_r. exists t.
    by split; [|split; [apply same_request_refl|left]].
  - destruct IH as (t1 & H1 & Hsame1 & Hfwd1).
    rewrite app_assoc, run_snoc.
    destruct (lifecycle_step _ e (wf_run _ (evs ++ evs') (wf_init nodeID location t0))
                p t1 H1) as (t2 & H2 & Hsame2 & Hfwd2).
    exists t2. split; [done|]. split.
    + by eapply same_request_trans.
    + by eapply forward_trans.
Qed.

End Lifecycle.

(** ** Holders of the live tasks *)

Section Holders.
Context {F : Type} {FO : Float64 F}.
Implicit Types (fc : FogCompute F) (task t : Task F) (objs : list (Task F)).









End Holders.

(** ** What the records of the node say *)

Section Records.
Context {F : Type} {FO : Float64 F}.
Implicit Types (fc : FogCompute F) (task t : Task F) (objs : list (Task F)).

(** *** Statuses *)

Lemma statuses_step fc (e : Event F) :
  Forall stored_status (heapObjs fc) /\
  Forall (fun rt => Status (rt_Task rt) = "rejected") (rejectedTasks fc) ->
  Forall stored_status (heapObjs (step fc e)) /\
  Forall (fun rt => Status (rt_Task rt) = "rejected")
         (rejectedTasks (step fc e)).
Proof.
  revert fc e.
  apply (step_cases (fun fc fc' =>
    Forall stored_status (heapObjs fc) /\
    Forall (fun rt => Status (rt_Task rt) = "rejected") (rejectedTasks fc) ->
    Forall stored_status (heapObjs fc') /\
    Forall (fun rt => Status (rt_Task rt) = "rejected") (rejectedTasks fc')));
    try done.
  - intros fc body now reason load qs [Ho Hr]. split; [done|]. simpl.
    apply Forall_app. split; [done|]. by constructor.
  - intros fc body now [Ho Hr]. split; [|done]. simpl.
    apply Forall_app. split; [done|]. constructor; [|done]. by left.
  - intros fc i rt now _ t [Ho Hr]. split; simpl.
    + apply Forall_app. split; [done|]. constructor; [|done]. by left.
    + by apply Forall_delete.
  - intros fc [Ho Hr]. split; [done|]. constructor.
  - intros fc w p h Hw Hpop. unfold workerPop. by rewrite Hw, Hpop.
  - intros fc w p now Hw [Ho Hr]. unfold processBegin. rewrite Hw.
    split; [|done]. simpl. apply Forall_alter; [done|].
    intros t _ _. right. by left.
  - intros fc w p startTime t now Hw Ht [Ho Hr]. unfold processEnd.
    rewrite Hw, Ht. split; [|done]. simpl. apply Forall_insert; [done|].
    right. right. repeat split. by eexists.
Qed.

(** X3. Whatever status, result or completion time a request body
    carries, every stored task is marked "queued", "processing" or
    "completed" and never "rejected", a completed task carries the
    result of the handler of its type and a completion time, and every
    entry of the rejection queue is marked "rejected". *)
Theorem statuses_are_the_nodes_own nodeID location (t0 : Z)
    (evs : list (Event F)) :
  let fc := run (NewFogCompute nodeID location t0) evs in
  Forall (fun t =>
    Status t = "queued" \/ Status t = "processing" \/
    (Status t = "completed" /\ Result t = Some (runHandler (Type_ t)) /\
     exists completedAt, CompletedAt t = Some completedAt))
    (heapObjs fc) /\
  Forall (fun rt => Status (rt_Task rt) = "rejected") (rejectedTasks fc).
Proof.
  intros fc. subst fc.
  apply (run_invariant (fun fc =>
    Forall stored_status (heapObjs fc) /\
    Forall (fun rt => Status (rt_Task rt) = "rejected") (rejectedTasks fc))).
  - intros fc e. apply statuses_step.
  - split; constructor.
Qed.

(** *** Scores *)

Lemma scores_step fc (e : Event F) :
  Forall self_scored (heapObjs fc) /\
  Forall (fun rt => self_scored (rt_Task rt)) (rejectedTasks fc) ->
  Forall self_scored (heapObjs (step fc e)) /\
  Forall (fun rt => self_scored (rt_Task rt)) (rejectedTasks (step fc e)).
Proof.
  revert fc e.
  apply (step_cases (fun fc fc' =>
    Forall self_scored (heapObjs fc) /\
    Forall (fun rt => self_scored (rt_Task rt)) (rejectedTasks fc) ->
    Forall self_scored (heapObjs fc') /\
    Forall (fun rt => self_scored (rt_Task rt)) (rejectedTasks fc')));
    try done.
  - intros fc body now reason load qs [Ho Hr]. split; [done|]. simpl.
    apply Forall_app. split; [done|]. by constructor.
  - intros fc body now [Ho Hr]. split; [|done]. simpl.
    apply Forall_app. split; [done|]. by constructor.
  - intros fc i rt now _ t [Ho Hr]. split; simpl.
    + apply Forall_app. split; [done|]. by constructor.
    + by apply Forall_delete.
  - intros fc [Ho Hr]. split; [done|]. constructor.
  - intros fc w p h Hw Hpop. unfold workerPop. by rewrite Hw, Hpop.
  - intros fc w p now Hw [Ho Hr]. unfold processBegin. rewrite Hw.
    split; [|done]. simpl. apply Forall_alter; [done|].
    intros t _ Ht. exact Ht.
  - intros fc w p startTime t now Hw Ht [Ho Hr]. unfold processEnd.
    rewrite Hw, Ht. split; [|done]. simpl. apply Forall_insert; [done|].
    rewrite Forall_lookup in Ho. exact (Ho p t Ht).
Qed.

Lemma scores_run nodeID location (now : Z) (evs : list (Event F)) :
  let fc := run (NewFogCompute nodeID location now) evs in
  Forall self_scored (heapObjs fc) /\
  Forall (fun rt => self_scored (rt_Task rt)) (rejectedTasks fc).
Proof.
  apply (run_invariant (fun fc =>
    Forall self_scored (heapObjs fc) /\
    Forall (fun rt => self_scored (rt_Task rt)) (rejectedTasks fc))).
  - intros fc e. apply scores_step.
  - split; constructor.
Qed.

(** X4. The score a task carries is always the score of its own
    attributes: for every stored task and every entry of the rejection
    queue, smart_score equals calculateScore of the task as it stands.
    So the score that a successful retry recomputes is the score the
    entry was given when it was submitted. *)
Theorem retry_keeps_the_score nodeID location (t0 : Z)
    (evs : list (Event F)) :
  let fc := run (NewFogCompute nodeID location t0) evs in
  Forall (fun t => SmartScore t = calculateScore t) (heapObjs fc) /\
  Forall (fun rt => SmartScore (rt_Task rt) = calculateScore (rt_Task rt))
         (rejectedTasks fc) /\
  (forall taskID now fc' task,
     handleRetryRejectedTask taskID now fc = (fc', OKMessage task) ->
     exists i rt,
       rejectedTasks fc !! i = Some rt /\ ID (rt_Task rt) = taskID /\
       rejectedTasks fc' = delete i (rejectedTasks fc) /\
       SmartScore task = SmartScore (rt_Task rt)).
Proof.
  intros fc.
  destruct (scores_run nodeID location t0 evs) as [Ho Hr]. fold fc in Ho, Hr.
  split; [done|]. split; [done|].
  intros taskID now fc' task. unfold handleRetryRejectedTask.
  destruct (findRejected _ _) as [[i t]|] eqn:Hfind; [|done].
  destruct (resourceGate _ _ _ _); [done|].
  intros [= <- <-].
  apply findRejected_Some in Hfind as (rt & Hi & <- & Hid & _).
  exists i, rt. repeat split; try done. simpl.
  rewrite Forall_lookup in Hr. symmetry. exact (Hr i rt Hi).
Qed.

(** *** The task store *)

Lemma store_ids_enqueue fc task : store_ids fc -> store_ids (enqueue fc task).
Proof.
  intros Hv taskID p. simpl.
  destruct (decide (ID task = taskID)) as [<-|Hne].
  - rewrite lookup_insert_eq. intros [= <-]. exists task. split; [|done].
    rewrite lookup_app_r by done. by rewrite Nat.sub_diag.
  - rewrite lookup_insert_ne by done. intros Hp.
    destruct (Hv _ _ Hp) as (t & Ht & Hid). exists t. split; [|done].
    by apply lookup_app_l_Some.
Qed.

Lemma store_ids_step fc (e : Event F) : store_ids fc -> store_ids (step fc e).
Proof.
  revert fc e.
  apply (step_cases (fun fc fc' => store_ids fc -> store_ids fc')); try done.
  - intros fc body now. apply store_ids_enqueue.
  - intros fc i rt now _ t Hv. by apply (store_ids_enqueue (removeRejected i fc)).
  - intros fc w p h Hw Hpop. unfold workerPop. by rewrite Hw, Hpop.
  - intros fc w p now Hw Hv taskID q. unfold processBegin. rewrite Hw. simpl.
    intros Hq. destruct (Hv _ _ Hq) as (t & Ht & Hid).
    destruct (decide (q = p)) as [->|Hne].
    + exists (with_Status "processing" t). split; [|done].
      by rewrite list_lookup_alter_eq, Ht.
    + exists t. split; [|done]. by rewrite list_lookup_alter_ne.
  - intros fc w p startTime tp now Hw Hp Hv taskID q.
    unfold processEnd. rewrite Hw, Hp. simpl.
    intros Hq. destruct (Hv _ _ Hq) as (t & Ht & Hid).
    destruct (decide (q = p)) as [->|Hne].
    + rewrite Hp in Ht. injection Ht as <-. eexists. split.
      * apply list_lookup_insert_eq. by eapply lookup_lt_Some.
      * done.
    + exists t. split; [|done]. by rewrite list_lookup_insert_ne.
Qed.

(** X5. The task store and GET /tasks/{id}.  On every node a run has
    reached, an id the store does not list is answered not-found and an
    id it lists is answered with a task that carries that id (the store
    holds no dangling or mislabelled pointer).  And a task just
    admitted, by a submission or by a retry, is what a GET of its id
    returns right after. *)
Theorem get_task_after_store nodeID location (t0 : Z)
    (evs : list (Event F)) :
  let fc := run (NewFogCompute nodeID location t0) evs in
  (forall taskID,
     match tasks fc !! taskID with
     | None => handleGetTask taskID fc = NotFound
     | Some p => exists t, handleGetTask taskID fc = OK t /\
                           heapObjs fc !! p = Some t /\ ID t = taskID
     end) /\
  (forall snap body now fc' task,
     submitWith snap body now fc = (fc', OK task) ->
     handleGetTask (ID task) fc' = OK task) /\
  (forall taskID now fc' task,
     handleRetryRejectedTask taskID now fc = (fc', OKMessage task) ->
     ID task = taskID /\ handleGetTask taskID fc' = OK task).
Proof.
  intros fc.
  assert (forall fc0 task,
    handleGetTask (ID task) (enqueue fc0 task) = OK task) as Hget.
  { intros fc0 task. unfold handleGetTask. simpl.
    rewrite lookup_insert_eq, lookup_app_r by done.
    by rewrite Nat.sub_diag. }
  split; [|split].
  - intros taskID. unfold handleGetTask.
    destruct (tasks fc !! taskID) as [p|] eqn:Hp; [|done].
    assert (store_ids fc) as Hv.
    { apply (run_invariant store_ids); [apply store_ids_step|].
      intros id q Hq. simpl in Hq. by rewrite lookup_empty in Hq. }
    destruct (Hv _ _ Hp) as (t & Ht & Hid). exists t. by rewrite Ht.
  - intros snap [body|] now fc' task; [|done].
    destruct (submit_cases snap body now fc) as [(reason & _ & ->)|[_ ->]];
      [done|].
    intros [= <- <-]. apply Hget.
  - intros taskID now fc' task. unfold handleRetryRejectedTask.
    destruct (findRejected _ _) as [[i t]|] eqn:Hfind; [|done].
    destruct (resourceGate _ _ _ _); [done|].
    apply findRejected_Some in Hfind as (rt & Hi & <- & Hid & _).
    intros [= <- <-]. subst taskID. split; [done|].
    exact (Hget (removeRejected i fc) _).
Qed.

End Records.

(** ** Counters, status page and load *)

Section Counters.
Context {F : Type} {FO : Float64 F}.
Implicit Types (fc : FogCompute F) (task t : Task F) (objs : list (Task F)).
Local Open Scope Z_scope.

Lemma wrap64_small z : - 2 ^ 63 <= z < 2 ^ 63 -> wrap64 z = z.
Proof. intros H. unfold wrap64. rewrite Z.mod_small; lia. Qed.

Lemma completed_count_app objs1 objs2 :
  completed_count (objs1 ++ objs2) =
  (completed_count objs1 + completed_count objs2)%nat.
Proof. unfold completed_count. by rewrite filter_app, length_app. Qed.

Lemma completed_count_one t :
  completed_count [t] = if decide (Status t = "completed") then 1%nat else 0%nat.
Proof.
  unfold completed_count. rewrite filter_cons, filter_nil.
  by destruct (decide _).
Qed.

(** Overwriting a task that is not completed. *)
Lemma completed_count_insert objs p t t' :
  objs !! p = Some t -> Status t <> "completed" ->
  completed_count (<[p := t']> objs) =
  (completed_count objs +
   if decide (Status t' = "completed") then 1 else 0)%nat.
Proof.
  intros Hp Hs. pose proof (lookup_lt_Some _ _ _ Hp) as Hlt.
  rewrite insert_take_drop by done.
  rewrite <- (take_drop_middle objs p t Hp) at 3.
  rewrite !completed_count_app.
  change (t' :: drop (S p) objs) with ([t'] ++ drop (S p) objs).
  change (t :: drop (S p) objs) with ([t] ++ drop (S p) objs).
  rewrite !completed_count_app, !completed_count_one.
  rewrite (decide_False (P := Status t = "completed")) by done. lia.
Qed.

Lemma counted_step fc (e : Event F) n :
  n + 1 < 2 ^ 63 -> wf fc -> counted fc n -> counted (step fc e) (n + 1).
Proof.
  intros Hn. revert fc e.
  apply (step_cases (fun fc fc' =>
    wf fc -> counted fc n -> counted fc' (n + 1))).
  - intros fc _ (H1 & H2 & H3 & H4). unfold counted. lia.
  - intros fc body now reason load qs _ (H1 & H2 & H3 & H4).
    unfold counted. simpl. rewrite length_app. simpl.
    rewrite wrap64_small by lia. lia.
  - intros fc body now _ (H1 & H2 & H3 & H4). unfold counted. simpl.
    rewrite completed_count_app, completed_count_one. simpl. lia.
  - intros fc i rt now Hi t _ (H1 & H2 & H3 & H4). unfold counted. simpl.
    rewrite completed_count_app, completed_count_one. simpl.
    pose proof (length_delete (rejectedTasks fc) i ltac:(by eexists)). lia.
  - intros fc _ (H1 & H2 & H3 & H4). unfold counted. simpl. lia.
  - intros fc w p h Hw Hpop _ (H1 & H2 & H3 & H4).
    unfold workerPop. rewrite Hw, Hpop. unfold counted. simpl. lia.
  - intros fc w p now Hw Hwf (H1 & H2 & H3 & H4).
    destruct (wf_worker_claim fc w _ _ Hwf Hw eq_refl) as (t & Ht & Hs).
    simpl in Ht, Hs.
    unfold processBegin. rewrite Hw. unfold counted. simpl.
    rewrite (list_alter_insert _ _ _ _ Ht).
    rewrite (completed_count_insert _ _ t) by (done || by rewrite Hs).
    simpl. lia.
  - intros fc w p startTime t now Hw Ht Hwf (H1 & H2 & H3 & H4).
    destruct (wf_worker_claim fc w _ _ Hwf Hw eq_refl) as (t' & Ht' & Hs).
    simpl in Ht', Hs. rewrite Ht in Ht'. injection Ht' as <-.
    unfold processEnd. rewrite Hw, Ht. unfold counted. simpl.
    rewrite (completed_count_insert _ _ t) by (done || by rewrite Hs).
    simpl. rewrite wrap64_small by lia. lia.
  - intros fc now _ (H1 & H2 & H3 & H4). unfold counted. simpl. lia.
Qed.

Lemma counted_run nodeID location (now : Z) (evs : list (Event F)) :
  Z.of_nat (length evs) < 2 ^ 63 ->
  counted (run (NewFogCompute nodeID location now) evs) (Z.of_nat (length evs)).
Proof.
  induction evs as [|e evs IH] using rev_ind; intros Hlen.
  - unfold counted. simpl. unfold completed_count. simpl. lia.
  - rewrite length_app in *. simpl in *.
    rewrite run_snoc.
    replace (Z.of_nat (length evs + 1)) with (Z.of_nat (length evs) + 1) by lia.
    apply counted_step; [lia|apply wf_run, wf_init|apply IH; lia].
Qed.

(** X6. The counters of the metrics, on a run of fewer than 2^63
    steps.  tasks_rejected is never below the length of the rejection
    queue: a rejection adds one to both, a retry and a clear shorten
    the queue and leave the counter.  tasks_processed never counts a
    task that is not marked "completed": it is at most the number of
    completed tasks.  Neither counter is negative or exceeds the number
    of steps, so neither wraps around. *)
Theorem metrics_counters nodeID location (t0 : Z) (evs : list (Event F)) :
  Z.of_nat (length evs) < 2 ^ 63 ->
  let fc := run (NewFogCompute nodeID location t0) evs in
  Z.of_nat (length (rejectedTasks fc)) <= TasksRejected (metrics fc) /\
  TasksRejected (metrics fc) <= Z.of_nat (length evs) /\
  0 <= TasksProcessed (metrics fc) /\
  TasksProcessed (metrics fc) <= Z.of_nat (completed_count (heapObjs fc)) /\
  TasksProcessed (metrics fc) <= Z.of_nat (length evs).
Proof.
  intros Hlen fc.
  destruct (counted_run nodeID location t0 evs Hlen) as (H1 & H2 & H3 & H4).
  fold fc in H1, H2, H3, H4. lia.
Qed.

End Counters.

Section StatusPage.
Context {F : Type} {FO : Float64 F}.
Implicit Types (fc : FogCompute F).

Lemma lastTick_snoc (t0 : Z) (evs : list (Event F)) e :
  lastTick t0 (evs ++ [e]) =
  match e with Tick now => now | _ => lastTick t0 evs end.
Proof. unfold lastTick. by rewrite foldl_app. Qed.

(** What a step does to the node record. *)
Lemma node_step fc (e : Event F) :
  node (step fc e) =
  match e with
  | Tick now =>
      {| node_ID := node_ID (node fc); Location := Location (node fc);
         node_Status := node_Status (node fc);
         Load := (of_int (Z.of_nat (length (taskHeap fc))) / lit 100)%fl;
         LastSeen := now |}
  | _ => node fc
  end.
Proof.
  destruct e as [body now|snap body now|taskID now| |w|w now|w now|now];
    simpl; try done.
  - unfold handleSubmitTask. destruct body as [body|]; [|done].
    by destruct (submit_cases (snapshot fc) body now fc)
      as [(reason & _ & ->)|[_ ->]].
  - destruct body as [body|]; [|done].
    by destruct (submit_cases snap body now fc)
      as [(reason & _ & ->)|[_ ->]].
  - unfold handleRetryRejectedTask.
    destruct (findRejected _ _) as [[i t]|]; [|done].
    by destruct (resourceGate _ _ _ _).
  - unfold workerPop.
    destruct (workerPool fc !! w) as [[|?|? ?]|]; try done.
    by destruct (heap_Pop _ _) as [[p h]|].
  - unfold processBegin.
    by destruct (workerPool fc !! w) as [[|?|? ?]|].
  - unfold processEnd.
    destruct (workerPool fc !! w) as [[|?|p s]|]; try done.
    by destruct (heapObjs fc !! p).
Qed.

(** X7. GET /status and GET /health.  On every run the node keeps the
    id and the location it was created with and the status "active",
    and the health page names that id; last_seen is the clock reading
    of the latest metrics tick (of the creation before the first).  The
    load changes at a metrics tick only, where it becomes the queue
    length divided by 100: submissions, retries and workers leave it
    as the last tick set it. *)
Theorem status_page nodeID location (t0 : Z) (evs : list (Event F)) :
  let fc := run (NewFogCompute nodeID location t0) evs in
  let n := handleGetStatus fc in
  node_ID n = nodeID /\ Location n = location /\ node_Status n = "active" /\
  LastSeen n = lastTick t0 evs /\
  handleHealth fc = ("healthy", nodeID) /\
  forall e : Event F,
    Load (handleGetStatus (step fc e)) =
    match e with
    | Tick _ => (of_int (Z.of_nat (length (taskHeap fc))) / lit 100)%fl
    | _ => Load n
    end.
Proof.
  intros fc n. subst n. unfold handleGetStatus, handleHealth.
  assert (node_ID (node fc) = nodeID /\ Location (node fc) = location /\
          node_Status (node fc) = "active" /\
          LastSeen (node fc) = lastTick t0 evs) as (H1 & H2 & H3 & H4).
  { subst fc. induction evs as [|e evs IH] using rev_ind; [done|].
    rewrite run_snoc, node_step, lastTick_snoc.
    destruct IH as (H1 & H2 & H3 & H4). by destruct e. }
  repeat split; try done.
  - by rewrite H1.
  - intros e. rewrite node_step. by destruct e.
Qed.

End StatusPage.

Section TickGate.

Lemma load_small (n : nat) :
  (n <= 80)%nat ->
  ((of_int (Z.of_nat n) / lit 100 : float) >? lit 0.8)%fl = false.
Proof.
  intros Hn.
  do 81 (destruct n as [|n]; [vm_compute; reflexivity|]). lia.
Qed.

(** X8. The load and the overload gate, in float64.  The load a metrics
    tick records exceeds the threshold 0.80 only if more than 80 tasks
    are queued; so for a submission that reads the node right after a
    tick the overload gate rejects exactly when more than 50 tasks are
    queued. *)
Theorem overload_gate_after_tick (fc : FogCompute float) (now : Z) :
  let fc' := updateMetrics now fc in
  ((length (taskHeap fc) <= 80)%nat ->
   (Load (node fc') >? MaxLoadThreshold)%fl = false) /\
  overloadGate (snapshot fc') = (50 <? Z.of_nat (length (taskHeap fc)))%Z.
Proof.
  intros fc'. split.
  - intros Hn. by apply load_small.
  - unfold overloadGate. simpl.
    destruct (50 <? Z.of_nat (length (taskHeap fc)))%Z eqn:E.
    + apply orb_true_r.
    + apply Z.ltb_ge in E. rewrite orb_false_r.
      apply load_small. lia.
Qed.

End TickGate.

(** ** The queue: contents and order of pops *)

Section QueueContents.
Context {A : Type} (Less : A -> A -> bool).

(** X9. container/heap on a TaskHeap never loses or duplicates an
    element, whatever Less answers (also on scores that are not
    numbers): after heap.Push the slice holds the old elements and the
    new one; heap.Pop on a non-empty slice returns its first element and
    leaves the others, one fewer; on an empty slice there is nothing to
    return (Go panics); and a push onto the empty heap followed by a
    pop gives the element back. *)
Theorem heap_keeps_contents (h : list A) (x : A) :
  heap_Push Less h x ≡ₚ x :: h /\
  length (heap_Push Less h x) = S (length h) /\
  heap_Pop Less [] = None /\
  (h <> [] ->
   exists item h', heap_Pop Less h = Some (item, h') /\
     h !! 0 = Some item /\ h ≡ₚ item :: h' /\ S (length h') = length h) /\
  heap_Pop Less (heap_Push Less [] x) = Some (x, []).
Proof.
  split; [apply heap_Push_perm|].
  split; [by rewrite (Permutation_length (heap_Push_perm Less h x))|].
  split; [done|]. split; [|done].
  intros Hne. destruct (heap_Pop_nonempty Less h Hne) as (item & h' & Hpop).
  exists item, h'. split; [done|].
  split; [by eapply heap_Pop_root|].
  pose proof (heap_Pop_perm Less _ _ _ Hpop) as Hperm.
  split; [done|]. by rewrite (Permutation_length Hperm).
Qed.

End QueueContents.

Section PopOrder.
Context {F : Type} {FO : Float64 F} {FOrd : Float64Order F}.
Implicit Types (fc : FogCompute F) (task t : Task F) (objs : list (Task F)).

(** One pop on a node whose queue is in order. *)
Lemma sched_pop fc w :
  sched_ok fc -> workerPool fc !! w = Some Idle -> taskHeap fc <> [] ->
  exists p tp,
    workerPool (workerPop w fc) = <[w := Popped p]> (workerPool fc) /\
    heapObjs (workerPop w fc) = heapObjs fc /\
    taskHeap fc ≡ₚ p :: taskHeap (workerPop w fc) /\
    heapObjs fc !! p = Some tp /\
    forall q tq, q ∈ taskHeap fc -> heapObjs fc !! q = Some tq ->
      (SmartScore tq <? SmartScore tp)%fl = false.
Proof.
  intros (Hok & Hsc & _) Hidle Hne.
  destruct (heap_Pop_nonempty (TaskHeap_Less (heapObjs fc)) _ Hne)
    as (p & h & Hpop).
  pose proof (heap_Pop_perm _ _ _ _ Hpop) as Hperm.
  destruct (heap_Pop_ok _ (scored (heapObjs fc))
              (TaskHeap_Less_asym _) (TaskHeap_Less_ntrans _)
              _ _ _ Hok Hsc Hpop) as [_ Hmin].
  assert (p ∈ taskHeap fc) as Hp by (rewrite Hperm; left).
  rewrite Forall_forall in Hsc. destruct (Hsc p Hp) as (tp & Htp & _).
  exists p, tp. unfold workerPop. rewrite Hidle, Hpop. simpl.
  repeat split; try done.
  intros q tq Hq Htq. specialize (Hmin q Hq).
  unfold TaskHeap_Less, score_at in Hmin. by rewrite Htq, Htp in Hmin.
Qed.

(** X10. As long as no score is NaN the priority queue is a binary
    min-heap at every moment (no queued task has a score less than the
    task at its parent index), and pops come out in ascending order:
    when two idle workers pop one after the other, with no submission
    in between, the second takes another task and its score is not less
    than the score of the task the first took. *)
Theorem successive_pops_ascend nodeID location (t0 : Z)
    (evs : list (Event F)) w1 w2 :
  Forall numbered evs ->
  let fc := run (NewFogCompute nodeID location t0) evs in
  workerPool fc !! w1 = Some Idle -> workerPool fc !! w2 = Some Idle ->
  w1 <> w2 -> 2 <= length (taskHeap fc) ->
  let fc' := workerPop w2 (workerPop w1 fc) in
  heap_ok (TaskHeap_Less (heapObjs fc)) (taskHeap fc) /\
  exists p1 p2 t1 t2,
    workerPool fc' !! w1 = Some (Popped p1) /\
    workerPool fc' !! w2 = Some (Popped p2) /\
    heapObjs fc !! p1 = Some t1 /\ heapObjs fc !! p2 = Some t2 /\
    p1 <> p2 /\ taskHeap fc ≡ₚ p1 :: p2 :: taskHeap fc' /\
    (SmartScore t2 <? SmartScore t1)%fl = false.
Proof.
  intros Hnum fc Hw1 Hw2 Hne Hlen fc'.
  pose proof (sched_run _ evs Hnum (sched_init nodeID location t0)) as Hs.
  fold fc in Hs. split; [apply Hs|].
  assert (taskHeap fc <> []) as Hne1.
  { intros E. rewrite E in Hlen. simpl in Hlen. lia. }
  destruct (sched_pop fc w1 Hs Hw1 Hne1) as (p1 & t1 & Hpool1 & Hobj1 & Hperm1 & Ht1 & Hmin1).
  set (fc1 := workerPop w1 fc) in *.
  assert (sched_ok fc1) as Hs1.
  { apply (sched_step fc (WorkerPop w1)); done. }
  assert (workerPool fc1 !! w2 = Some Idle) as Hw2'.
  { rewrite Hpool1. by rewrite list_lookup_insert_ne. }
  assert (taskHeap fc1 <> []) as Hne2.
  { intros E. rewrite E in Hperm1. apply Permutation_length in Hperm1.
    simpl in Hperm1. lia. }
  destruct (sched_pop fc1 w2 Hs1 Hw2' Hne2) as (p2 & t2 & Hpool2 & Hobj2 & Hperm2 & Ht2 & _).
  fold fc' in Hpool2, Hobj2, Hperm2.
  assert (p2 ∈ taskHeap fc1) as Hp2 by (rewrite Hperm2; left).
  assert (NoDup (taskHeap fc)) as Hnd.
  { destruct (wf_run _ evs (wf_init nodeID location t0)) as [Hnd _].
    fold fc in Hnd. unfold owned in Hnd. rewrite fmap_app in Hnd.
    apply NoDup_app in Hnd as [Hnd _].
    rewrite <- list_fmap_compose in Hnd.
    by rewrite list_fmap_id in Hnd. }
  rewrite Hobj1 in Ht2.
  exists p1, p2, t1, t2. repeat split; try done.
  - rewrite Hpool2, list_lookup_insert_ne by done.
    rewrite Hpool1. apply list_lookup_insert_eq. by eapply lookup_lt_Some.
  - rewrite Hpool2. apply list_lookup_insert_eq. by eapply lookup_lt_Some.
  - rewrite Hperm1 in Hnd. apply NoDup_cons in Hnd as [Hnin _].
    intros ->. by apply Hnin.
  - by rewrite Hperm1, Hperm2.
  - apply (Hmin1 p2 t2); [|done]. rewrite Hperm1. by right.
Qed.

End PopOrder.

(** ** More on the handlers *)

Section MoreHandlers.
Context {F : Type} {FO : Float64 F}.
Implicit Types (fc : FogCompute F) (task body t : Task F) (snap : Snapshot F).

(** X11. The resource gate of a submission.  A submission that passes
    the overload gate is rejected by the resource gate exactly when its
    cpu, ram or storage cost, after the defaults, exceeds what the
    snapshot shows as available; the reason spells out the three costs
    and the three availabilities, and neither the energy level nor the
    criticality is looked at.  When no cost exceeds, the energy gate
    alone decides. *)
Theorem resource_gate_exact snap body now fc :
  ((currentLoad snap >? lit 0.8)%fl = false /\ (queueSize snap <= 50)%Z) ->
  let d := applyDefaults body in
  let reason :=
    "Ressources insuffisantes: CPU=" +:+ fmt2f (CPUCost d) +:+ "/" +:+
    fmt2f (snapCPU snap) +:+ ", RAM=" +:+ fmt2f (RAMCost d) +:+ "/" +:+
    fmt2f (snapRAM snap) +:+ ", Storage=" +:+ fmt2f (StorageCost d) +:+
    "/" +:+ fmt2f (snapStorage snap) in
  if decide ((CPUCost d >? snapCPU snap)%fl = true \/
             (RAMCost d >? snapRAM snap)%fl = true \/
             (StorageCost d >? snapStorage snap)%fl = true)
  then
    submitWith snap (Some body) now fc =
      (rejectTask fc (with_Status "rejected" (prepareTask body now)) reason
         (currentLoad snap) (queueSize snap) now,
       ServiceUnavailable reason)
  else
    gates snap (prepareTask body now) =
      if (4 <=? Criticality body)%Z && (snapEnergy snap <? lit 0.3)%fl
      then Some (energyReason (snapEnergy snap)) else None.
Proof.
  intros [Hload Hq] d reason.
  assert (overloadGate snap = false) as Hover.
  { unfold overloadGate, MaxLoadThreshold. rewrite Hload. simpl.
    by apply Z.ltb_ge. }
  assert (Criticality (prepareTask body now) = Criticality body) as Hc.
  { simpl. apply applyDefaults_fixed. }
  case_decide as Hcond.
  - apply submit_rejected. unfold gates. rewrite Hover.
    assert (resourceGate (prepareTask body now) (snapCPU snap) (snapRAM snap)
              (snapStorage snap) = true) as ->; [|done].
    unfold resourceGate. simpl. fold d.
    destruct Hcond as [->|[->| ->]]; by rewrite ?orb_true_r.
  - unfold gates. rewrite Hover.
    assert (resourceGate (prepareTask body now) (snapCPU snap) (snapRAM snap)
              (snapStorage snap) = false) as ->.
    { unfold resourceGate. simpl. fold d.
      destruct (CPUCost d >? snapCPU snap)%fl eqn:E1; [tauto|].
      destruct (RAMCost d >? snapRAM snap)%fl eqn:E2; [tauto|].
      destruct (StorageCost d >? snapStorage snap)%fl eqn:E3; [tauto|done]. }
    unfold energyGate. by rewrite Hc.
Qed.

(** X12. From submission to completion.  On a node whose queue is empty
    and where worker [w] is idle, a submission that passes the gates
    followed by one turn of that worker's loop leaves the queue empty
    and the worker idle again; GET /tasks/{id} then shows the task
    completed, with the result of the handler of its type and the
    completion time, otherwise as admitted; and each of the four ledger
    quantities has had the task's cost subtracted and added back. *)
Theorem submit_then_work snap body now startTime completedAt w fc :
  gates snap (prepareTask body now) = None ->
  taskHeap fc = [] -> workerPool fc !! w = Some Idle ->
  let task := with_Status "queued" (prepareTask body now) in
  let fc' := worker w startTime completedAt
               (fst (submitWith snap (Some body) now fc)) in
  handleGetTask (ID task) fc' =
    OK (with_completion (runHandler (Type_ body)) completedAt
          (with_Status "processing" task)) /\
  taskHeap fc' = [] /\ workerPool fc' = workerPool fc /\
  availableCPU fc' = (availableCPU fc - CPUCost task + CPUCost task)%fl /\
  availableRAM fc' = (availableRAM fc - RAMCost task + RAMCost task)%fl /\
  availableStorage fc' =
    (availableStorage fc - StorageCost task + StorageCost task)%fl /\
  energyLevel fc' = (energyLevel fc - EnergyCost task + EnergyCost task)%fl /\
  TasksProcessed (metrics fc') = wrap64 (TasksProcessed (metrics fc) + 1) /\
  rejectedTasks fc' = rejectedTasks fc.
Proof.
  intros Hgate Hheap Hidle task fc'. subst fc'.
  pose proof (lookup_lt_Some _ _ _ Hidle) as Hlt.
  rewrite (submit_admitted _ _ _ _ Hgate). fold task.
  unfold worker, processTask, workerPop. simpl. rewrite Hheap, Hidle. simpl.
  unfold processBegin. simpl.
  rewrite list_lookup_insert_eq by done. simpl.
  unfold processEnd. simpl.
  rewrite list_lookup_insert_eq by (by rewrite length_insert). simpl.
  rewrite list_lookup_alter_eq, lookup_app_r, Nat.sub_diag by done. simpl.
  assert (Type_ (applyDefaults body) = Type_ body) as ->
    by apply applyDefaults_fixed.
  repeat split.
  - unfold handleGetTask. simpl. rewrite lookup_insert_eq.
    rewrite list_lookup_insert_eq; [done|].
    rewrite length_alter, length_app. simpl. lia.
  - rewrite !list_insert_insert_eq. by apply list_insert_id.
Qed.

(** X13. A successful retry takes its entry out of the rejection queue
    for good: the queue is one entry shorter, and when no two entries
    of the queue carried the same id, a second retry of that id is
    answered not-found and changes nothing. *)
Theorem retry_succeeds_once taskID now now' fc fc' task :
  NoDup (ID ∘ rt_Task <$> rejectedTasks fc) ->
  handleRetryRejectedTask taskID now fc = (fc', OKMessage task) ->
  S (length (rejectedTasks fc')) = length (rejectedTasks fc) /\
  (forall rt, rt ∈ rejectedTasks fc' -> ID (rt_Task rt) <> taskID) /\
  handleRetryRejectedTask taskID now' fc' = (fc', NotFound).
Proof.
  intros Hnd. unfold handleRetryRejectedTask at 1.
  destruct (findRejected _ _) as [[i t]|] eqn:Hfind; [|done].
  destruct (resourceGate _ _ _ _); [done|].
  apply findRejected_Some in Hfind as (rt & Hi & <- & Hid & _).
  intros [= <- <-]. simpl.
  pose proof (lookup_lt_Some _ _ _ Hi) as Hlt.
  assert (forall rt', rt' ∈ delete i (rejectedTasks fc) ->
                      ID (rt_Task rt') <> taskID) as Hgone.
  { intros rt' Hin Heq.
    rewrite <- (take_drop_middle _ _ _ Hi) in Hnd.
    rewrite delete_take_drop in Hin.
    rewrite fmap_app, fmap_cons in Hnd.
    apply NoDup_app in Hnd as (_ & Hleft & Hnd).
    apply NoDup_cons in Hnd as [Hright _].
    apply elem_of_app in Hin as [Hin|Hin].
    - apply (Hleft (ID (rt_Task rt'))).
      + by apply (list_elem_of_fmap_2 (ID ∘ rt_Task)).
      + apply elem_of_cons. left. simpl. congruence.
    - apply Hright. simpl. rewrite Hid, <- Heq.
      by apply (list_elem_of_fmap_2 (ID ∘ rt_Task)). }
  split; [|split; [done|]].
  - rewrite length_delete by (by eexists). lia.
  - unfold handleRetryRejectedTask. simpl.
    by rewrite (proj2 (findRejected_None _ _) Hgone).
Qed.

(** X14. Clearing the rejection queue.  DELETE /rejected-tasks reports
    how many entries it discards and leaves the queue empty; the
    discarded tasks cannot come back (every retry is then answered
    not-found and changes nothing); the tasks_rejected counter, the
    ledger, the task store, the priority queue and the workers are
    left as they were. *)
Theorem clear_discards_for_good fc :
  let fc' := fst (handleClearRejectedTasks fc) in
  snd (handleClearRejectedTasks fc) = OKCount (fst (handleGetRejectedTasks fc)) /\
  handleGetRejectedTasks fc' = (0%Z, []) /\
  (forall taskID now, handleRetryRejectedTask taskID now fc' = (fc', NotFound)) /\
  metrics fc' = metrics fc /\ tasks fc' = tasks fc /\
  taskHeap fc' = taskHeap fc /\ heapObjs fc' = heapObjs fc /\
  workerPool fc' = workerPool fc /\ node fc' = node fc /\
  (availableCPU fc', availableRAM fc', availableStorage fc', energyLevel fc') =
  (availableCPU fc, availableRAM fc, availableStorage fc, energyLevel fc).
Proof. by repeat split. Qed.

(** X15. Back-pressure.  As long as every submission commits on the
    snapshot it has just read and nothing is retried, the priority
    queue never holds more than 51 tasks: a submission that finds more
    than 50 is rejected.  (A retry does not look at the queue length.) *)
Theorem queue_stays_bounded nodeID location (t0 : Z) (evs : list (Event F)) :
  Forall unretried evs ->
  length (taskHeap (run (NewFogCompute nodeID location t0) evs)) <= 51.
Proof.
  intros Hevs. induction evs as [|e evs IH] using rev_ind; [simpl; lia|].
  apply Forall_app in Hevs as [Hevs He].
  apply Forall_cons in He as [He _]. specialize (IH Hevs).
  rewrite run_snoc. set (fc := run _ evs) in *.
  destruct e as [body now|snap body now|taskID now| |w|w now|w now|now];
    simpl in *; try done.
  - unfold handleSubmitTask. destruct body as [body|]; [|done].
    destruct (submit_cases (snapshot fc) body now fc)
      as [(reason & _ & ->)|[Hgate ->]]; [done|].
    simpl. rewrite (Permutation_length (heap_Push_perm _ _ _)). simpl.
    unfold gates in Hgate.
    destruct (overloadGate (snapshot fc)) eqn:Hover; [done|].
    unfold overloadGate in Hover. apply orb_false_elim in Hover as [_ Hq].
    simpl in Hq. apply Z.ltb_ge in Hq. lia.
  - unfold workerPop.
    destruct (workerPool fc !! w) as [[|?|? ?]|]; try done.
    destruct (heap_Pop _ _) as [[p h]|] eqn:Hpop; [|done]. simpl.
    apply heap_Pop_perm, Permutation_length in Hpop. simpl in Hpop. lia.
  - unfold processBegin.
    by destruct (workerPool fc !! w) as [[|?|? ?]|].
  - unfold processEnd.
    destruct (workerPool fc !! w) as [[|?|p s]|]; try done.
    by destruct (heapObjs fc !! p).
Qed.

End MoreHandlers.

(** ** Defaults, the score in exact arithmetic, latencies *)

Section Defaults.
Context {F : Type} {FO : Float64 F}.
Implicit Types (body : Task F).

Ltac fields :=
  cbn [CPUCost RAMCost StorageCost EnergyCost NetworkLatency Type_
       with_CPUCost with_RAMCost with_StorageCost with_EnergyCost
       with_NetworkLatency].

(** The five fields the defaults may write. *)
Lemma applyDefaults_costs body :
  let d := applyDefaults body in
  CPUCost d = (if (CPUCost body =? lit 0)%fl
               then defaultCPUCost (Type_ body) else CPUCost body) /\
  RAMCost d = (if (RAMCost body =? lit 0)%fl
               then defaultRAMCost (Type_ body) else RAMCost body) /\
  StorageCost d = (if (StorageCost body =? lit 0)%fl
                   then defaultStorageCost (Type_ body) else StorageCost body) /\
  EnergyCost d = (if (EnergyCost body =? lit 0)%fl
                  then (CPUCost d * lit 0.5)%fl else EnergyCost body) /\
  NetworkLatency d = (if (NetworkLatency body =? 0)%Z
                      then (10 * Millisecond)%Z else NetworkLatency body).
Proof.
  unfold applyDefaults.
  destruct (CPUCost body =? lit 0)%fl; fields;
    (destruct (RAMCost body =? lit 0)%fl; fields);
    (destruct (StorageCost body =? lit 0)%fl; fields);
    (destruct (EnergyCost body =? lit 0)%fl; fields);
    (destruct (NetworkLatency body =? 0)%Z; fields);
  repeat split.
Qed.

End Defaults.

Section Defaults64.
Implicit Types (body : Task float).

Lemma defaultCPUCost_nonzero ty : (defaultCPUCost ty =? 0)%float = false.
Proof.
  unfold defaultCPUCost.
  repeat (destruct (String.eqb ty _); [vm_compute; reflexivity|]).
  vm_compute; reflexivity.
Qed.

Lemma defaultRAMCost_nonzero ty : (defaultRAMCost ty =? 0)%float = false.
Proof.
  unfold defaultRAMCost.
  repeat (destruct (String.eqb ty _); [vm_compute; reflexivity|]).
  vm_compute; reflexivity.
Qed.

Lemma defaultStorageCost_nonzero ty : (defaultStorageCost ty =? 0)%float = false.
Proof.
  unfold defaultStorageCost.
  repeat (destruct (String.eqb ty _); [vm_compute; reflexivity|]).
  vm_compute; reflexivity.
Qed.

(** X16. The defaults of a submission, in float64.  A cost the request
    declares (a value other than zero) is kept as declared; a missing
    cpu, ram or storage cost is replaced by the default of the task
    type, which is never zero, so that after the defaults these three
    costs and the network latency are not zero; a missing energy cost
    becomes half the cpu cost as it stands after its own default; type,
    priority, criticality and estimated latency are left as sent (an
    omitted criticality stays 0). *)
Theorem defaults_fill_what_is_missing body :
  let d := applyDefaults body in
  ((CPUCost body =? 0)%float = false -> CPUCost d = CPUCost body) /\
  ((RAMCost body =? 0)%float = false -> RAMCost d = RAMCost body) /\
  ((StorageCost body =? 0)%float = false -> StorageCost d = StorageCost body) /\
  ((EnergyCost body =? 0)%float = false -> EnergyCost d = EnergyCost body) /\
  (NetworkLatency body <> 0%Z -> NetworkLatency d = NetworkLatency body) /\
  ((CPUCost body =? 0)%float = true -> CPUCost d = defaultCPUCost (Type_ body)) /\
  ((RAMCost body =? 0)%float = true -> RAMCost d = defaultRAMCost (Type_ body)) /\
  ((StorageCost body =? 0)%float = true ->
   StorageCost d = defaultStorageCost (Type_ body)) /\
  ((EnergyCost body =? 0)%float = true -> EnergyCost d = (CPUCost d * 0.5)%float) /\
  (NetworkLatency body = 0%Z -> NetworkLatency d = 10000000%Z) /\
  (CPUCost d =? 0)%float = false /\ (RAMCost d =? 0)%float = false /\
  (StorageCost d =? 0)%float = false /\ NetworkLatency d <> 0%Z /\
  Type_ d = Type_ body /\ Priority d = Priority body /\
  Criticality d = Criticality body /\
  EstimatedLatency d = EstimatedLatency body.
Proof.
  intros d.
  destruct (applyDefaults_costs body) as (H1 & H2 & H3 & H4 & H5).
  destruct (applyDefaults_fixed body) as (F1 & F2 & F3 & F4).
  fold d in H1, H2, H3, H4, H5, F1, F2, F3, F4.
  cbn [feq lit binary64] in H1, H2, H3, H4.
  change (float_of_Z (Qnum 0) / float_of_Z (Z.pos (Qden 0)))%float
    with 0%float in H1, H2, H3, H4.
  change (float_of_Z (Qnum 0.5) / float_of_Z (Z.pos (Qden 0.5)))%float
    with 0.5%float in H4.
  pose proof (defaultCPUCost_nonzero (Type_ body)) as N1.
  pose proof (defaultRAMCost_nonzero (Type_ body)) as N2.
  pose proof (defaultStorageCost_nonzero (Type_ body)) as N3.
  repeat split; try done.
  - intros E. by rewrite H1, E.
  - intros E. by rewrite H2, E.
  - intros E. by rewrite H3, E.
  - intros E. by rewrite H4, E.
  - intros E. apply Z.eqb_neq in E. by rewrite H5, E.
  - intros E. by rewrite H1, E.
  - intros E. by rewrite H2, E.
  - intros E. by rewrite H3, E.
  - intros E. by rewrite H4, E.
  - intros E. by rewrite H5, E.
  - rewrite H1. by destruct (CPUCost body =? 0)%float eqn:E.
  - rewrite H2. by destruct (RAMCost body =? 0)%float eqn:E.
  - rewrite H3. by destruct (StorageCost body =? 0)%float eqn:E.
  - rewrite H5. destruct (NetworkLatency body =? 0)%Z eqn:E; [done|].
    by apply Z.eqb_neq.
Qed.

End Defaults64.

Section ExactScore.
Local Open Scope Q_scope.

Lemma Seconds_exact (d : Z) : Seconds d == inject_Z d / 1000000000.
Proof.
  unfold Seconds. cbn [fadd fdiv of_int lit exact]. unfold Second.
  change 1e9 with (1000000000 # 1).
  pose proof (Z.quot_rem' d 1000000000) as E.
  rewrite E at 3. rewrite inject_Z_plus, inject_Z_mult.
  change (inject_Z 1000000000) with (1000000000 # 1). field.
Qed.

(** X17. The score in exact arithmetic.  With a criticality for which
    5 - criticality does not overflow Go's int, the score is the linear
    form priority + 10 (5 - criticality) + estimated latency [ns] /
    10^10 + network latency [ns] / (2 * 10^10) + 5 (cpu + ram) +
    storage / 1000 + 2 energy: one more unit of priority adds 1, one
    more level of criticality takes 10 off.  At the least int, where
    5 - criticality wraps around, the criticality term is
    10 (5 - 2^63) instead of 10 (5 + 2^63). *)
Theorem score_in_exact_arithmetic (t : Task Q) :
  let rest :=
    inject_Z (Priority t) +
    inject_Z (EstimatedLatency t) / 10000000000 +
    inject_Z (NetworkLatency t) / 20000000000 +
    5 * (CPUCost t + RAMCost t) + StorageCost t / 1000 + 2 * EnergyCost t in
  ((- 2 ^ 63 <= 5 - Criticality t < 2 ^ 63)%Z ->
   calculateScore t == 10 * inject_Z (5 - Criticality t) + rest) /\
  (Criticality t = (- 2 ^ 63)%Z ->
   calculateScore t == 10 * inject_Z (5 - 2 ^ 63) + rest).
Proof.
  intros rest. subst rest.
  assert (forall c, wrap64 (5 - Criticality t) = c ->
    calculateScore t ==
    10 * inject_Z c + (inject_Z (Priority t) +
    inject_Z (EstimatedLatency t) / 10000000000 +
    inject_Z (NetworkLatency t) / 20000000000 +
    5 * (CPUCost t + RAMCost t) + StorageCost t / 1000 + 2 * EnergyCost t))
    as Hform.
  { intros c Hc. unfold calculateScore. rewrite Hc.
    cbn [fadd fmul of_int lit exact]. rewrite !Seconds_exact. field. }
  split.
  - intros Hr. apply Hform. by apply wrap64_small.
  - intros Hc. apply Hform. rewrite Hc. reflexivity.
Qed.

End ExactScore.

Section Latency.
Context {F : Type} {FO : Float64 F}.
Local Open Scope Z_scope.

(** X18. The average latency of the metrics.  For latencies below 2^62
    ns, the value recorded after a completion lies between the previous
    average and the new latency: it is the new latency itself when the
    previous average is 0 (nothing recorded yet, or an average that is
    exactly 0), and otherwise the mean of the two, rounded towards
    zero, so that the latest task weighs as much as all earlier ones
    together.  tasks_processed goes up by one. *)
Theorem average_latency_between (m : Metrics F) (latency : Z) :
  0 <= AvgLatency m < 2 ^ 62 -> 0 <= latency < 2 ^ 62 ->
  TasksProcessed m < 2 ^ 63 - 1 -> - 2 ^ 63 <= TasksProcessed m ->
  let m' := recordLatency latency m in
  Z.min (AvgLatency m) latency <= AvgLatency m' <= Z.max (AvgLatency m) latency /\
  (AvgLatency m = 0 -> AvgLatency m' = latency) /\
  (AvgLatency m <> 0 -> AvgLatency m' = (AvgLatency m + latency) / 2) /\
  TasksProcessed m' = TasksProcessed m + 1 /\
  TasksRejected m' = TasksRejected m /\ CurrentLoad m' = CurrentLoad m.
Proof.
  intros Ha Hl Hp1 Hp2 m'. subst m'. unfold recordLatency. simpl.
  rewrite (wrap64_small (TasksProcessed m + 1)) by lia.
  rewrite (wrap64_small (AvgLatency m + latency)) by lia.
  rewrite Z.quot_div_nonneg by lia.
  destruct (AvgLatency m =? 0) eqn:E.
  - apply Z.eqb_eq in E. repeat split; try done; lia.
  - apply Z.eqb_neq in E.
    pose proof (Z.div_le_lower_bound (AvgLatency m + latency) 2
                  (Z.min (AvgLatency m) latency) ltac:(lia) ltac:(lia)).
    pose proof (Z.div_le_upper_bound (AvgLatency m + latency) 2
                  (Z.max (AvgLatency m) latency) ltac:(lia) ltac:(lia)).
    repeat split; try done; lia.
Qed.

End Latency.

(** * Concrete runs

    The node of the deployment, fresh, in the arithmetic of the program
    and in exact arithmetic. *)

(** The decimal constants of the source are the binary64 values Go
    gives them. *)
Example lit_binary64 :
  (lit 0.1 : float) = 0.1%float /\ (lit 0.05 : float) = 0.05%float /\
  (lit 0.001 : float) = 0.001%float /\ (lit 0.8 : float) = 0.8%float /\
  (lit 0.3 : float) = 0.3%float /\ (lit 0.15 : float) = 0.15%float /\
  (lit 0.2 : float) = 0.2%float /\ (lit 0.4 : float) = 0.4%float /\
  (lit 0.5 : float) = 0.5%float /\ (lit 1e9 : float) = 1e9%float /\
  (lit 1000 : float) = 1000%float /\ (lit 100 : float) = 100%float /\
  (lit 1e308 : float) = 1e308%float /\ (lit (-1e308) : float) = (-1e308)%float.
Proof. repeat split; vm_compute; reflexivity. Qed.

(** *** S1: a bare preprocessing request *)

(** C2 (amended). On a fresh node a request of type "preprocessing" and
    priority 1 that names nothing else is admitted with cpu cost 0.1,
    ram cost 0.1, storage cost 25, energy cost 0.05 and status
    "queued"; its criticality is 0, so its smart score is
    1 + 50 + 0 + 0.0005 + 1 + 0.025 + 0.1 = 52.1255, in binary64 (the
    float64 nearest to 52.1255) as in exact arithmetic. *)
Theorem s1_happy_path nodeID location t0 now :
  (exists fc task,
     handleSubmitTask (Some (bare "preprocessing" 1)) now
       (NewFogCompute (F := float) nodeID location t0) = (fc, OK task) /\
     CPUCost task = 0.1%float /\ RAMCost task = 0.1%float /\
     StorageCost task = 25%float /\ EnergyCost task = 0.05%float /\
     Status task = "queued" /\ Criticality task = 0%Z /\
     SmartScore task = 52.1255%float) /\
  (exists fc task,
     handleSubmitTask (Some (bare "preprocessing" 1)) now
       (NewFogCompute (F := Q) nodeID location t0) = (fc, OK task) /\
     CPUCost task == 0.1 /\ RAMCost task == 0.1 /\
     StorageCost task == 25 /\ EnergyCost task == 0.05 /\
     Status task = "queued" /\ Criticality task = 0%Z /\
     SmartScore task == 52.1255)%Q.
Proof.
  split.
  - eexists _, _. split.
    + apply submit_admitted. vm_compute. reflexivity.
    + repeat split; vm_compute; reflexivity.
  - eexists _, _. split.
    + apply submit_admitted. vm_compute. reflexivity.
    + repeat split; vm_compute; reflexivity.
Qed.

(** C2, as stated, fails: the score of that request is not 42.1255. *)
Lemma s1_score_is_not_42 :
  match snd (handleSubmitTask (Some (bare "preprocessing" 1)) 1 node64) with
  | OK task => (SmartScore task =? 42.1255%float)%fl = false
  | _ => False
  end /\
  match snd (handleSubmitTask (Some (bare "preprocessing" 1)) 1 nodeQ) with
  | OK task => (SmartScore task =? 42.1255%Q)%fl = false
  | _ => False
  end.
Proof. split; vm_compute; reflexivity. Qed.

(** *** Two default tasks, completed *)


(** *** Costs out of range *)



(** *** A score that is not a number *)

(** C4, as stated, fails: after [nan_run] the four tasks are queued,
    task 0 with score 51.5605, task 1 with score NaN, task 3 with score
    50.5605; the next pop takes task 0 although task 3, which has the
    smaller score, is in the queue. *)
Lemma nan_score_breaks_order :
  let fc := run node64 nan_run in
  taskHeap fc = [0; 1; 2; 3] /\
  SmartScore <$> heapObjs fc !! 0 = Some 51.5605%float /\
  (fun task => (SmartScore task =? SmartScore task)%fl) <$> heapObjs fc !! 1
    = Some false /\
  SmartScore <$> heapObjs fc !! 3 = Some 50.5605%float /\
  TaskHeap_Less (heapObjs fc) 3 0 = true /\
  workerPool (workerPop 0 fc) !! 0 = Some (Popped 0) /\
  taskHeap (workerPop 0 fc) = [3; 1; 2].
Proof. vm_compute. repeat split. Qed.

(** A pop in binary64, for C4 (amended): five caching requests of
    priority 3, then an edge_analytics request of priority 0 and
    criticality 5, which is the one popped. *)
Lemma pop_takes_least_witness :
  let evs : list (Event float) :=
    [SubmitTask (Some (bare "caching" 3)) 1;
     SubmitTask (Some (bare "caching" 3)) 2;
     SubmitTask (Some (bare "caching" 3)) 3;
     SubmitTask (Some (bare "caching" 3)) 4;
     SubmitTask (Some (bare "caching" 3)) 5;
     SubmitTask (Some (request "edge_analytics" 0 5 0 0 0 0)) 6] in
  let fc := run node64 evs in
  Forall numbered evs /\ workerPool fc !! 0 = Some Idle /\ taskHeap fc <> [] /\
  exists p tp,
    workerPool (workerPop 0 fc) !! 0 = Some (Popped p) /\
    taskHeap fc ≡ₚ p :: taskHeap (workerPop 0 fc) /\
    heapObjs fc !! p = Some tp /\
    (forall q tq, q ∈ taskHeap fc -> heapObjs fc !! q = Some tq ->
       (SmartScore tq <? SmartScore tp)%fl = false) /\
    (forall a b ta tb, a ∈ taskHeap fc -> b ∈ taskHeap fc ->
       heapObjs fc !! a = Some ta -> heapObjs fc !! b = Some tb ->
       (SmartScore ta <? SmartScore tb)%fl = true -> p <> b).
Proof.
  intros evs fc.
  assert (Forall numbered evs) as Hnum.
  { repeat constructor; vm_compute; reflexivity. }
  assert (workerPool fc !! 0 = Some Idle) as Hidle.
  { vm_compute. reflexivity. }
  assert (taskHeap fc <> []) as Hne.
  { vm_compute. discriminate. }
  split; [exact Hnum|]. split; [exact Hidle|]. split; [exact Hne|].
  exact (pop_takes_least "fog-node-1" "edge-site-1" 0 evs 0 Hnum Hidle Hne).
Defined.

(** *** Low energy *)

(** C7 on that node: of two requests that differ in criticality only,
    the one of criticality 3 is admitted and the one of criticality 5 is
    rejected by the energy gate. *)
Lemma energy_gate_witness :
  let fc : FogCompute float := low_energy in
  let body c : Task float := request "caching" 1 c 0.1 0.1 1 0.1 in
  (energyLevel fc <? 0.3)%float = true /\
  snd (submitWith (snapshot fc) (Some (body 3%Z)) 2 fc) =
    OK (with_Status "queued" (prepareTask (body 3%Z) 2)) /\
  snd (submitWith (snapshot fc) (Some (body 5%Z)) 2 fc) =
    ServiceUnavailable
      "Niveau d'énergie bas pour tâche critique: énergie=0.10".
Proof.
  intros fc body.
  assert (forall c,
    ((currentLoad (snapshot fc) >? lit 0.8)%fl = false /\
     (queueSize (snapshot fc) <= 50)%Z) /\
    resourceGate (prepareTask (body c) 2) (snapCPU (snapshot fc))
      (snapRAM (snapshot fc)) (snapStorage (snapshot fc)) = false) as Hpass.
  { intros c. split; [split|]; vm_compute; congruence. }
  split; [vm_compute; reflexivity|]. split.
  - pose proof (energy_gate_exact (snapshot fc) (body 3%Z) 2 fc
                  (proj1 (Hpass 3%Z)) (proj2 (Hpass 3%Z))) as H3.
    cbv zeta in H3. destruct (decide _) as [[Hc _]|_] in H3.
    + exfalso. vm_compute in Hc. congruence.
    + by rewrite H3.
  - pose proof (energy_gate_exact (snapshot fc) (body 5%Z) 2 fc
                  (proj1 (Hpass 5%Z)) (proj2 (Hpass 5%Z))) as H5.
    cbv zeta in H5. destruct (decide _) as [_|Hn] in H5.
    + rewrite H5. vm_compute. reflexivity.
    + exfalso. apply Hn. split; vm_compute; congruence.
Defined.

(** *** A full queue *)

(** C6 on that node: a bare preprocessing request, which a fresh node
    admits, is rejected with the overload reason. *)
Lemma overload_gate_witness :
  let fc : FogCompute float := full_queue in
  length (taskHeap fc) = 51 /\
  handleSubmitTask (Some (bare "preprocessing" 1)) 100 fc =
    (rejectTask fc (with_Status "rejected" (prepareTask (bare "preprocessing" 1) 100))
       "Nœud surchargé: charge=0.00, taille_queue=51" (Load (node fc)) 51 100,
     ServiceUnavailable "Nœud surchargé: charge=0.00, taille_queue=51").
Proof.
  intros fc.
  assert (length (taskHeap fc) = 51) as Hlen by (vm_compute; reflexivity).
  split; [exact Hlen|].
  rewrite (proj2 (overload_gate_rejects (snapshot fc) (bare "preprocessing" 1)
                    100 fc) Hlen).
  assert ("Nœud surchargé: charge=" +:+ fmt2f (Load (node fc)) +:+
          ", taille_queue=" +:+ itoa 51 =
          "Nœud surchargé: charge=0.00, taille_queue=51") as ->
    by (vm_compute; reflexivity).
  reflexivity.
Defined.

(** *** Retry *)

(** C5 on that node: an unknown id is not found; the task that asks for
    5 cpu stays rejected; the task of criticality 5 is queued again
    although the energy level is still below 0.3. *)
Lemma retry_witness :
  let fc : FogCompute float := after_rejections in
  (energyLevel fc <? 0.3)%float = true /\
  handleRetryRejectedTask "task-9" 4 fc = (fc, NotFound) /\
  handleRetryRejectedTask "task-3" 4 fc = (fc, ServiceUnavailable retryReason) /\
  exists fc' task,
    handleRetryRejectedTask "task-2" 4 fc = (fc', OKMessage task) /\
    Status task = "queued" /\ Criticality task = 5%Z /\
    rejectedTasks fc' = delete 0 (rejectedTasks fc) /\
    energyLevel fc' = (energyLevel fc - lit 0.1)%fl /\
    tasks fc' = <["task-2" := 1]> (tasks fc) /\
    taskHeap fc' ≡ₚ 1 :: taskHeap fc.
Proof.
  intros fc.
  set (t2 := with_Status "rejected" (prepareTask critical_request 2)
             : Task float).
  set (t3 := with_Status "rejected" (prepareTask greedy_request 3)
             : Task float).
  pose proof (retry_rechecks_resources_only "task-9" 4 fc) as [H9 _].
  pose proof (retry_rechecks_resources_only "task-3" 4 fc) as [_ H3].
  pose proof (retry_rechecks_resources_only "task-2" 4 fc) as [_ H2].
  assert (findRejected "task-9" (rejectedTasks fc) = None) as E9
    by (vm_compute; reflexivity).
  assert (findRejected "task-3" (rejectedTasks fc) = Some (1, t3)) as E3
    by (vm_compute; reflexivity).
  assert (findRejected "task-2" (rejectedTasks fc) = Some (0, t2)) as E2
    by (vm_compute; reflexivity).
  pose proof (proj1 (findRejected_None _ _) E9) as N9.
  destruct (proj1 (findRejected_Some _ _ _ _) E3)
    as (rt3 & Hl3 & Ht3 & Hid3 & Hf3).
  destruct (proj1 (findRejected_Some _ _ _ _) E2)
    as (rt2 & Hl2 & Ht2 & Hid2 & Hf2).
  rewrite <- Ht3 in Hid3. rewrite <- Ht2 in Hid2.
  specialize (H3 1 rt3 Hl3 Hid3 Hf3). specialize (H2 0 rt2 Hl2 Hid2 Hf2).
  cbv zeta in H3, H2. rewrite Ht3 in H3. rewrite Ht2 in H2.
  split; [vm_compute; reflexivity|].
  split; [exact (H9 N9)|]. split.
  - apply (proj1 H3). left. vm_compute. reflexivity.
  - destruct (proj2 H2) as (fc' & task & p & Hret & Hp & Hst & _ & Hcr & _ &
      _ & _ & _ & _ & Hrj & _ & _ & _ & Hen & Hts & _ & Hheap & _).
    { repeat split; vm_compute; reflexivity. }
    assert (p = 1) as -> by (rewrite Hp; vm_compute; reflexivity).
    exists fc', task. repeat split; done.
Defined.

(** *** Two submissions at one clock reading *)

(** C9, as stated, fails: a second request submitted at the same clock
    reading 7 is admitted too, as a task of another type, under the same
    id "task-7"; the task store then holds the second task only, while
    both are in the queue. *)
Lemma same_clock_same_id :
  let r1 := handleSubmitTask (Some (bare "caching" 1)) 7 node64 in
  let r2 := handleSubmitTask (Some (bare "preprocessing" 2)) 7 (fst r1) in
  exists task1 task2,
    snd r1 = OK task1 /\ snd r2 = OK task2 /\
    Type_ task1 = "caching" /\ Type_ task2 = "preprocessing" /\
    ID task1 = "task-7" /\ ID task2 = "task-7" /\
    taskHeap (fst r2) = [0; 1] /\
    Type_ <$> heapObjs (fst r2) = ["caching"; "preprocessing"] /\
    handleGetTask "task-7" (fst r2) = OK task2.
Proof. vm_compute. eexists _, _. repeat split. Qed.

(** C9 (amended) on two submissions at the clock readings 7 and 8. *)
Lemma task_ids_follow_clock_witness :
  let task1 : Task float :=
    with_Status "queued" (prepareTask (bare "caching" 1) 7) in
  let task2 : Task float :=
    with_Status "queued" (prepareTask (bare "preprocessing" 2) 8) in
  snd (submitWith (snapshot node64) (Some (bare "caching" 1)) 7 node64)
    = OK task1 /\
  snd (submitWith (snapshot after_caching) (Some (bare "preprocessing" 2)) 8
         after_caching) = OK task2 /\
  ID task1 = "task-" +:+ itoa 7 /\ ID task2 = "task-" +:+ itoa 8 /\
  (ID task1 <> ID task2 <-> 7%Z <> 8%Z).
Proof.
  intros task1 task2.
  assert (snd (submitWith (snapshot node64) (Some (bare "caching" 1)) 7 node64)
          = OK task1) as H1.
  { rewrite submit_admitted; [reflexivity|vm_compute; reflexivity]. }
  assert (snd (submitWith (snapshot after_caching)
                 (Some (bare "preprocessing" 2)) 8 after_caching)
          = OK task2) as H2.
  { rewrite submit_admitted; [reflexivity|vm_compute; reflexivity]. }
  split; [exact H1|]. split; [exact H2|].
  exact (task_ids_follow_clock (snapshot node64) (snapshot after_caching)
           (bare "caching" 1) (bare "preprocessing" 2) 7 8 node64
           after_caching task1 task2 H1 H2).
Defined.

(** C10, as stated, fails: after a task was admitted at clock reading 7,
    a request that asks for 5 cpu, submitted at the same reading, is
    rejected with id "task-7"; GET /tasks/task-7 then finds a task, the
    admitted one.  And the request of criticality 5 that the low-energy
    node rejected as "task-2" is not found at first, but is put into the
    task store by a retry, after which GET /tasks/task-2 finds it. *)
Lemma rejected_id_found :
  (let r1 := handleSubmitTask (Some (bare "caching" 1)) 7 node64 in
   let r2 := handleSubmitTask (Some greedy_request) 7 (fst r1) in
   exists task1,
     snd r1 = OK task1 /\
     snd r2 = ServiceUnavailable
       "Ressources insuffisantes: CPU=5.00/0.95, RAM=0.10/0.95, Storage=1.00/990.00" /\
     (ID ∘ rt_Task) <$> rejectedTasks (fst r2) = ["task-7"] /\
     handleGetTask "task-7" (fst r2) = OK task1) /\
  (let fc : FogCompute float := after_rejections in
   let r := handleRetryRejectedTask "task-2" 4 fc in
   exists task,
     (ID ∘ rt_Task) <$> rejectedTasks fc = ["task-2"; "task-3"] /\
     handleGetTask "task-2" fc = NotFound /\
     snd r = OKMessage task /\
     handleGetTask "task-2" (fst r) = OK task).
Proof. vm_compute. split; eexists; repeat split. Qed.

(** C10 (amended) on a fresh node: the request that asks for 5 cpu is
    rejected, and its id is not found in the task store. *)
Lemma rejected_task_not_stored_witness :
  let reason :=
    "Ressources insuffisantes: CPU=5.00/1.00, RAM=0.10/1.00, Storage=1.00/1000.00" in
  gates (snapshot node64) (prepareTask greedy_request 7) = Some reason /\
  let r := submitWith (snapshot node64) (Some greedy_request) 7 node64 in
  snd r = ServiceUnavailable reason /\
  tasks (fst r) = tasks node64 /\
  handleGetTask ("task-" +:+ itoa 7) (fst r) = NotFound.
Proof.
  intros reason.
  assert (gates (snapshot node64) (prepareTask greedy_request 7) = Some reason)
    as Hgate by (vm_compute; reflexivity).
  split; [exact Hgate|].
  destruct (rejected_task_not_stored (snapshot node64) greedy_request 7 node64
              reason Hgate) as (H1 & H2 & _ & _ & _ & H6 & _).
  split; [exact H1|]. split; [exact H2|].
  apply H6. vm_compute. reflexivity.
Defined.

(** ** Bookkeeping on concrete runs *)

(** *** The life of one task *)

(** X1 on a caching task: stored at address 0 by its submission, it is
    still there, the same request, after a worker has popped, begun and
    ended it. *)
Lemma stored_task_moves_forward_witness :
  let evs : list (Event float) := [SubmitTask (Some (bare "caching" 1)) 1] in
  let evs' : list (Event float) := [WorkerPop 0; WorkerBegin 0 2; WorkerEnd 0 3] in
  let t : Task float := with_Status "queued" (prepareTask (bare "caching" 1) 1) in
  heapObjs (run (NewFogCompute "fog-node-1" "edge-site-1" 0) evs) !! 0 = Some t /\
  exists t',
    heapObjs (run (NewFogCompute "fog-node-1" "edge-site-1" 0) (evs ++ evs')) !! 0
      = Some t' /\
    same_request t t' /\ forward (Status t) (Status t').
Proof.
  intros evs evs' t.
  assert (heapObjs (run (NewFogCompute "fog-node-1" "edge-site-1" 0) evs) !! 0
          = Some t) as H by (vm_compute; reflexivity).
  split; [exact H|].
  exact (stored_task_moves_forward "fog-node-1" "edge-site-1" 0 evs evs' 0 t H).
Defined.

(** X12 on the fresh node: a bare caching request, worker 0. *)
Lemma submit_then_work_witness :
  let body : Task float := bare "caching" 1 in
  let task := with_Status "queued" (prepareTask body 1) in
  gates (snapshot node64) (prepareTask body 1) = None /\
  taskHeap node64 = [] /\ workerPool node64 !! 0 = Some Idle /\
  let fc' := worker 0 2 3 (fst (submitWith (snapshot node64) (Some body) 1 node64)) in
  handleGetTask (ID task) fc' =
    OK (with_completion (runHandler (Type_ body)) 3
          (with_Status "processing" task)) /\
  taskHeap fc' = [] /\ workerPool fc' = workerPool node64 /\
  availableCPU fc' = (availableCPU node64 - CPUCost task + CPUCost task)%fl /\
  availableRAM fc' = (availableRAM node64 - RAMCost task + RAMCost task)%fl /\
  availableStorage fc' =
    (availableStorage node64 - StorageCost task + StorageCost task)%fl /\
  energyLevel fc' =
    (energyLevel node64 - EnergyCost task + EnergyCost task)%fl /\
  TasksProcessed (metrics fc') = wrap64 (TasksProcessed (metrics node64) + 1) /\
  rejectedTasks fc' = rejectedTasks node64.
Proof.
  intros body task.
  assert (gates (snapshot node64) (prepareTask body 1) = None) as Hgate
    by (vm_compute; reflexivity).
  split; [exact Hgate|]. split; [reflexivity|]. split; [reflexivity|].
  exact (submit_then_work (snapshot node64) body 1 2 3 0 node64 Hgate
           eq_refl eq_refl).
Defined.

(** *** Counters *)

(** X6 on the run [two_defaults] followed by a request that asks for 5
    cpu: two tasks processed, one rejected. *)
Lemma metrics_counters_witness :
  let evs : list (Event float) :=
    two_defaults ++ [SubmitTask (Some greedy_request) 7] in
  let fc := run (NewFogCompute "fog-node-1" "edge-site-1" 0) evs in
  (Z.of_nat (length evs) < 2 ^ 63)%Z /\
  (TasksProcessed (metrics fc), TasksRejected (metrics fc)) = (2, 1)%Z /\
  (Z.of_nat (length (rejectedTasks fc)) <= TasksRejected (metrics fc))%Z /\
  (TasksRejected (metrics fc) <= Z.of_nat (length evs))%Z /\
  (0 <= TasksProcessed (metrics fc))%Z /\
  (TasksProcessed (metrics fc) <= Z.of_nat (completed_count (heapObjs fc)))%Z /\
  (TasksProcessed (metrics fc) <= Z.of_nat (length evs))%Z.
Proof.
  intros evs fc.
  assert (Z.of_nat (length evs) < 2 ^ 63)%Z as Hlen by (vm_compute; reflexivity).
  split; [exact Hlen|]. split; [vm_compute; reflexivity|].
  exact (metrics_counters "fog-node-1" "edge-site-1" 0 evs Hlen).
Defined.

(** X18 on a previous average of 100 ns and a latency of 200 ns. *)
Lemma average_latency_between_witness :
  let m : Metrics float :=
    {| TasksProcessed := 1; TasksRejected := 0; AvgLatency := 100;
       CurrentLoad := 0%float |} in
  let m' := recordLatency 200 m in
  AvgLatency m' = 150%Z /\
  (Z.min (AvgLatency m) 200 <= AvgLatency m' <= Z.max (AvgLatency m) 200)%Z /\
  (AvgLatency m = 0%Z -> AvgLatency m' = 200%Z) /\
  (AvgLatency m <> 0%Z -> AvgLatency m' = ((AvgLatency m + 200) / 2)%Z) /\
  TasksProcessed m' = (TasksProcessed m + 1)%Z /\
  TasksRejected m' = TasksRejected m /\ CurrentLoad m' = CurrentLoad m.
Proof.
  intros m m'. split; [reflexivity|].
  apply (average_latency_between m 200); simpl; lia.
Defined.

(** *** The queue *)

(** X10 on three caching requests of priorities 3, 1 and 2: worker 0
    pops, then worker 1. *)
Lemma successive_pops_ascend_witness :
  let evs : list (Event float) :=
    [SubmitTask (Some (bare "caching" 3)) 1;
     SubmitTask (Some (bare "caching" 1)) 2;
     SubmitTask (Some (bare "caching" 2)) 3] in
  let fc := run (NewFogCompute "fog-node-1" "edge-site-1" 0) evs in
  let fc' := workerPop 1 (workerPop 0 fc) in
  Forall numbered evs /\
  workerPool fc !! 0 = Some Idle /\ workerPool fc !! 1 = Some Idle /\
  0 <> 1 /\ 2 <= length (taskHeap fc) /\
  heap_ok (TaskHeap_Less (heapObjs fc)) (taskHeap fc) /\
  exists p1 p2 t1 t2,
    workerPool fc' !! 0 = Some (Popped p1) /\
    workerPool fc' !! 1 = Some (Popped p2) /\
    heapObjs fc !! p1 = Some t1 /\ heapObjs fc !! p2 = Some t2 /\
    p1 <> p2 /\ taskHeap fc ≡ₚ p1 :: p2 :: taskHeap fc' /\
    (SmartScore t2 <? SmartScore t1)%fl = false.
Proof.
  intros evs fc fc'.
  assert (Forall numbered evs) as Hnum.
  { repeat constructor; vm_compute; reflexivity. }
  assert (workerPool fc !! 0 = Some Idle) as H0 by (vm_compute; reflexivity).
  assert (workerPool fc !! 1 = Some Idle) as H1 by (vm_compute; reflexivity).
  assert (0 <> 1) as Hne by lia.
  assert (2 <= length (taskHeap fc)) as Hlen by (vm_compute; lia).
  split; [exact Hnum|]. split; [exact H0|]. split; [exact H1|].
  split; [exact Hne|]. split; [exact Hlen|].
  exact (successive_pops_ascend "fog-node-1" "edge-site-1" 0 evs 0 1
           Hnum H0 H1 Hne Hlen).
Defined.

(** X15 on 51 submissions, each admitted: the bound is reached. *)
Lemma queue_stays_bounded_witness :
  let evs : list (Event float) :=
    (fun k => SubmitTask (Some (request "caching" 3 1 0.001 0.001 1 0.001))
                         (Z.of_nat k)) <$> seq 1 51 in
  Forall unretried evs /\
  length (taskHeap (run (NewFogCompute "fog-node-1" "edge-site-1" 0) evs)) = 51 /\
  length (taskHeap (run (NewFogCompute "fog-node-1" "edge-site-1" 0) evs)) <= 51.
Proof.
  intros evs.
  assert (Forall unretried evs) as Hevs.
  { apply Forall_fmap, Forall_forall. intros k _. exact I. }
  split; [exact Hevs|]. split; [vm_compute; reflexivity|].
  exact (queue_stays_bounded "fog-node-1" "edge-site-1" 0 evs Hevs).
Defined.

(** *** Gates and retries *)

(** X11 on the fresh node: the request that asks for 5 cpu is rejected
    by the resource gate. *)
Lemma resource_gate_exact_witness :
  let snap := snapshot node64 in
  ((currentLoad snap >? lit 0.8)%fl = false /\ (queueSize snap <= 50)%Z) /\
  submitWith snap (Some greedy_request) 7 node64 =
    (rejectTask node64 (with_Status "rejected" (prepareTask greedy_request 7))
       "Ressources insuffisantes: CPU=5.00/1.00, RAM=0.10/1.00, Storage=1.00/1000.00"
       (currentLoad snap) (queueSize snap) 7,
     ServiceUnavailable
       "Ressources insuffisantes: CPU=5.00/1.00, RAM=0.10/1.00, Storage=1.00/1000.00").
Proof.
  intros snap.
  assert ((currentLoad snap >? lit 0.8)%fl = false /\ (queueSize snap <= 50)%Z)
    as Hpass.
  { split; vm_compute; congruence. }
  split; [exact Hpass|].
  pose proof (resource_gate_exact snap greedy_request 7 node64 Hpass) as H.
  cbv zeta in H. destruct (decide _) as [_|Hn] in H.
  - rewrite H.
    assert ("Ressources insuffisantes: CPU=" +:+
            fmt2f (CPUCost (applyDefaults (greedy_request : Task float))) +:+ "/" +:+
            fmt2f (snapCPU snap) +:+ ", RAM=" +:+
            fmt2f (RAMCost (applyDefaults (greedy_request : Task float))) +:+ "/" +:+
            fmt2f (snapRAM snap) +:+ ", Storage=" +:+
            fmt2f (StorageCost (applyDefaults (greedy_request : Task float))) +:+ "/" +:+
            fmt2f (snapStorage snap) =
            "Ressources insuffisantes: CPU=5.00/1.00, RAM=0.10/1.00, Storage=1.00/1000.00")
      as -> by (vm_compute; reflexivity).
    reflexivity.
  - exfalso. apply Hn. left. vm_compute. reflexivity.
Defined.

(** X13 on the low-energy node with its two rejected requests: the
    request of criticality 5 is retried with success, and a second
    retry does not find it. *)
Lemma retry_succeeds_once_witness :
  let fc : FogCompute float := after_rejections in
  let t : Task float :=
    with_SubmittedAt 4 (with_Status "queued"
      (with_Status "rejected" (prepareTask critical_request 2))) in
  let task := with_SmartScore (calculateScore t) t in
  let fc' := enqueue (removeRejected 0 fc) task in
  NoDup (ID ∘ rt_Task <$> rejectedTasks fc) /\
  handleRetryRejectedTask "task-2" 4 fc = (fc', OKMessage task) /\
  S (length (rejectedTasks fc')) = length (rejectedTasks fc) /\
  (forall rt, rt ∈ rejectedTasks fc' -> ID (rt_Task rt) <> "task-2") /\
  handleRetryRejectedTask "task-2" 5 fc' = (fc', NotFound).
Proof.
  intros fc t task fc'.
  assert (NoDup (ID ∘ rt_Task <$> rejectedTasks fc)) as Hnd.
  { assert (ID ∘ rt_Task <$> rejectedTasks fc = ["task-2"; "task-3"]) as ->
      by (vm_compute; reflexivity).
    apply NoDup_cons. split; [|apply NoDup_singleton].
    rewrite list_elem_of_singleton. discriminate. }
  assert (handleRetryRejectedTask "task-2" 4 fc = (fc', OKMessage task)) as Hretry
    by (vm_compute; reflexivity).
  split; [exact Hnd|]. split; [exact Hretry|].
  exact (retry_succeeds_once "task-2" 4 5 fc fc' task Hnd Hretry).
Defined.
